(** * DemoMed assessment solver (index.js): risk scoring and resilient fetching

    A shallow embedding of [src/index.js].

    - JavaScript numbers are IEEE 754 binary64 values: [spec_float] with
      precision 53 and maximal exponent 1024, compared with [SFltb]/[SFleb].
    - JavaScript strings are [string]; a character stands for a code unit
      below 256.
    - JavaScript objects are finite maps from property names to values
      ([gmap string JSValue]); a missing property reads as [VUndefined].
    - Small integer counters of the program ([attempt], [page], the scores)
      are [nat] or [Z]: they stay far below 2^53, where binary64 arithmetic
      on integers is exact.
    - The network is a script of outcomes, one per call of [fetch]; what the
      program does to the outside (requests sent, time slept) is a log.
    - The records [analyzePatients] goes through are objects.
      [submitResults] and [main], which post the result and print, are
      left out. *)

From Stdlib Require Import Floats.SpecFloat ZArith Lia Strings.Ascii.
From stdpp Require Import gmap strings list fin_maps sorting pretty.

Set Warnings "-register-all,-clear-no-such-hyp".
Local Open Scope string_scope.
Local Open Scope list_scope.
Local Open Scope Z_scope.

(* ================================================================== *)
(** * JavaScript values *)
(* ================================================================== *)

Abbreviation number := spec_float.

Inductive JSValue :=
  | VUndefined
  | VNull
  | VBool (b : bool)
  | VNum (n : number)
  | VStr (s : string)
  | VArr (l : list JSValue)
  | VObj (m : gmap string JSValue).

(** [o.k] for an object [o]. *)
Definition get (o : gmap string JSValue) (k : string) : JSValue :=
  default VUndefined (o !! k).

(** [v?.k], and [v.k] for a [v] that is truthy: [undefined] for [null]
    and [undefined], the property for an object, and [undefined] for the
    primitives and arrays, which have no property of the names read here
    ([data], [pagination], [totalPages], [hasNext]). *)
Definition opt_get (v : JSValue) (k : string) : JSValue :=
  match v with
  | VObj o => get o k
  | _ => VUndefined
  end.

Module Num.

Definition prec : Z := 53.
Definition emax : Z := 1024.

Definition nan : number := S754_nan.
Definition zero : number := S754_zero false.

(** The binary64 value nearest to an integer (ties to even). *)
Definition of_Z (z : Z) : number := binary_normalize prec emax z 0 false.

(** The binary64 value nearest to [num / den] for positive [num] and
    [den]: the quotient is taken with more than 64 bits, and a sticky bit
    records a non-zero remainder, before the final rounding. *)
Definition of_ratio (neg : bool) (num den : Z) : number :=
  let k := Z.max 0 (64 + Z.log2 den - Z.log2 num) in
  let q := (num * 2 ^ k) / den in
  let r := (num * 2 ^ k) mod den in
  let m := 2 * q + (if r =? 0 then 0 else 1) in
  binary_normalize prec emax (if neg then - m else m) (- k - 1) neg.

(** [m * 10^e10], rounded. *)
Definition of_decimal (neg : bool) (m e10 : Z) : number :=
  if m =? 0 then S754_zero neg
  else if 0 <=? e10 then of_ratio neg (m * 10 ^ e10) 1
  else of_ratio neg m (10 ^ (- e10)).

(** [Number.isFinite]. *)
Definition isFinite (x : number) : bool :=
  match x with
  | S754_zero _ | S754_finite _ _ _ => true
  | S754_infinity _ | S754_nan => false
  end.

Definition is_nan (x : number) : bool :=
  match x with S754_nan => true | _ => false end.

(** Truthiness of a number: every number but [0], [-0] and [NaN]. *)
Definition truthy (x : number) : bool :=
  match x with
  | S754_zero _ | S754_nan => false
  | _ => true
  end.

(** The relational operators; a comparison with [NaN] is false. *)
Definition lt (a b : number) : bool := SFltb a b.
Definition le (a b : number) : bool := SFleb a b.
Definition gt (a b : number) : bool := SFltb b a.
Definition ge (a b : number) : bool := SFleb b a.

Definition mul (a b : number) : number := SFmul prec emax a b.

(** [Math.max] and [Math.min]: [NaN] if an argument is [NaN]; [+0] is
    larger than [-0]. *)
Definition max (a b : number) : number :=
  match a, b with
  | S754_nan, _ | _, S754_nan => S754_nan
  | S754_zero sa, S754_zero sb => S754_zero (sa && sb)
  | _, _ => if SFltb a b then b else a
  end.

Definition min (a b : number) : number :=
  match a, b with
  | S754_nan, _ | _, S754_nan => S754_nan
  | S754_zero sa, S754_zero sb => S754_zero (sa || sb)
  | _, _ => if SFltb b a then b else a
  end.

End Num.

(* ================================================================== *)
(** * Strings: [trim], [split], [slice] and [Number(string)] *)
(* ================================================================== *)

Module Str.

(** White space and line terminators among the code units below 256. *)
Definition is_ws (c : ascii) : bool :=
  let n := N_of_ascii c in
  ((9 <=? n) && (n <=? 13) || (n =? 32) || (n =? 160))%N.

Fixpoint trim_start (s : string) : string :=
  match s with
  | EmptyString => EmptyString
  | String c s' => if is_ws c then trim_start s' else s
  end.

Fixpoint trim_end (s : string) : string :=
  match s with
  | EmptyString => EmptyString
  | String c s' =>
      match trim_end s' with
      | EmptyString => if is_ws c then EmptyString else String c EmptyString
      | t => String c t
      end
  end.

(** [s.trim()] *)
Definition trim (s : string) : string := trim_end (trim_start s).

(** [s.split(sep)] for a separator of one character. *)
Fixpoint split (sep : ascii) (s : string) : list string :=
  match s with
  | EmptyString => [EmptyString]
  | String c s' =>
      if Ascii.eqb c sep then EmptyString :: split sep s'
      else match split sep s' with
           | h :: t => String c h :: t
           | [] => [String c EmptyString]
           end
  end.

(** [s.slice(0, n)] *)
Definition slice0 (n : nat) (s : string) : string := String.substring 0 n s.

Definition digit_val (base : Z) (c : ascii) : option Z :=
  let n := Z.of_N (N_of_ascii c) in
  let v := if (48 <=? n) && (n <=? 57) then Some (n - 48)
           else if (97 <=? n) && (n <=? 102) then Some (n - 87)
           else if (65 <=? n) && (n <=? 70) then Some (n - 55)
           else None in
  match v with
  | Some d => if d <? base then Some d else None
  | None => None
  end.

(** The longest prefix of digits of the base, and what follows it. *)
Fixpoint take_digits (base : Z) (s : string) : list Z * string :=
  match s with
  | EmptyString => ([], EmptyString)
  | String c s' =>
      match digit_val base c with
      | Some d => let '(ds, r) := take_digits base s' in (d :: ds, r)
      | None => ([], s)
      end
  end.

Definition digits_value (base : Z) (ds : list Z) : Z :=
  fold_left (fun acc d => base * acc + d) ds 0.

(** A string made of digits of the base only, and at least one. *)
Definition all_digits (base : Z) (s : string) : option Z :=
  match take_digits base s with
  | (d :: ds, EmptyString) => Some (digits_value base (d :: ds))
  | _ => None
  end.

(** The exponent part: nothing, or [e] or [E], an optional sign and
    digits. *)
Definition exponent_part (s : string) : option Z :=
  match s with
  | EmptyString => Some 0
  | String c r =>
      if Ascii.eqb c "e" || Ascii.eqb c "E" then
        match r with
        | String "+" r' => all_digits 10 r'
        | String "-" r' => Z.opp <$> all_digits 10 r'
        | _ => all_digits 10 r
        end
      else None
  end.

(** An unsigned decimal literal, as mantissa and power of ten:
    [digits], [digits.], [digits.digits] or [.digits], then an optional
    exponent part. *)
Definition unsigned_decimal (s : string) : option (Z * Z) :=
  let '(ip, r1) := take_digits 10 s in
  let '(fp, r2) := match r1 with
                   | String "." r => take_digits 10 r
                   | _ => ([], r1)
                   end in
  match ip ++ fp with
  | [] => None
  | ds =>
      match exponent_part r2 with
      | Some ex => Some (digits_value 10 ds, ex - Z.of_nat (length fp))
      | None => None
      end
  end.

Definition signed_decimal (neg : bool) (s : string) : number :=
  if String.eqb s "Infinity" then S754_infinity neg
  else match unsigned_decimal s with
       | Some (m, e10) => Num.of_decimal neg m e10
       | None => Num.nan
       end.

Definition radix_literal (base : Z) (s : string) : number :=
  match all_digits base s with
  | Some v => Num.of_Z v
  | None => Num.nan
  end.

(** [Number(s)]: white space is trimmed, the empty string is [0], then a
    binary, octal or hexadecimal integer, or a signed decimal literal or
    [Infinity]; anything else is [NaN]. *)
Definition to_number (s : string) : number :=
  match trim s with
  | EmptyString => Num.zero
  | String "0" (String c r) as t =>
      if Ascii.eqb c "x" || Ascii.eqb c "X" then radix_literal 16 r
      else if Ascii.eqb c "o" || Ascii.eqb c "O" then radix_literal 8 r
      else if Ascii.eqb c "b" || Ascii.eqb c "B" then radix_literal 2 r
      else signed_decimal false t
  | String "+" r => signed_decimal false r
  | String "-" r => signed_decimal true r
  | t => signed_decimal false t
  end.

End Str.

(* ================================================================== *)
(** * Field parsers *)
(* ================================================================== *)

(** The numeric literals of the source, each the binary64 value its
    decimal spelling denotes. *)
Definition lit_80 : number := Eval vm_compute in Str.to_number "80".
Definition lit_89 : number := Eval vm_compute in Str.to_number "89".
Definition lit_90 : number := Eval vm_compute in Str.to_number "90".
Definition lit_120 : number := Eval vm_compute in Str.to_number "120".
Definition lit_129 : number := Eval vm_compute in Str.to_number "129".
Definition lit_130 : number := Eval vm_compute in Str.to_number "130".
Definition lit_139 : number := Eval vm_compute in Str.to_number "139".
Definition lit_140 : number := Eval vm_compute in Str.to_number "140".
Definition lit_99_5 : number := Eval vm_compute in Str.to_number "99.5".
Definition lit_99_6 : number := Eval vm_compute in Str.to_number "99.6".
Definition lit_100_9 : number := Eval vm_compute in Str.to_number "100.9".
Definition lit_101_0 : number := Eval vm_compute in Str.to_number "101.0".
Definition lit_65 : number := Eval vm_compute in Str.to_number "65".

(** [typeof x === 'string' && x.trim().length > 0] *)
Definition isNonEmptyString (x : JSValue) : bool :=
  match x with
  | VStr s => (0 <? String.length (Str.trim s))%nat
  | _ => false
  end.

(** [null] stands for "no number": [option number]. *)
Definition parseNumberStrict (x : JSValue) : option number :=
  match x with
  | VNum n => if Num.isFinite n then Some n else None
  | VStr s =>
      if negb (isNonEmptyString x) then None
      else let n := Str.to_number (Str.trim s) in
           if Num.isFinite n then Some n else None
  | _ => None
  end.

Record ParsedBloodPressure := {
  systolic : option number;
  diastolic : option number;
  valid : bool
}.

Definition all_null : ParsedBloodPressure :=
  {| systolic := None; diastolic := None; valid := false |}.

Definition parseBloodPressure (bp : JSValue) : ParsedBloodPressure :=
  if negb (isNonEmptyString bp) then all_null
  else match bp with
       | VStr s =>
           match Str.split "/" s with
           | [p0; p1] =>
               let sys := parseNumberStrict (VStr p0) in
               let dia := parseNumberStrict (VStr p1) in
               {| systolic := sys; diastolic := dia;
                  valid := bool_decide (sys ≠ None) && bool_decide (dia ≠ None) |}
           | _ => all_null
           end
       | _ => all_null
       end.

(* ================================================================== *)
(** * Risk scorer *)
(* ================================================================== *)

(** A [number | null] operand of a relational operator: [null] converts
    to [+0]. *)
Definition operand (o : option number) : number := default Num.zero o.

Definition sysStage (systolic : number) : Z :=
  if Num.lt systolic lit_120 then 1
  else if Num.ge systolic lit_120 && Num.le systolic lit_129 then 2
  else if Num.ge systolic lit_130 && Num.le systolic lit_139 then 3
  else if Num.ge systolic lit_140 then 4
  else 0.

Definition diaStage (diastolic : number) : Z :=
  if Num.lt diastolic lit_80 then 1
  else if Num.ge diastolic lit_80 && Num.le diastolic lit_89 then 3
  else if Num.ge diastolic lit_90 then 4
  else 0.

Definition scoreBloodPressure (bp : JSValue) : Z :=
  let r := parseBloodPressure bp in
  if negb (valid r) then 0
  else
    let systolic := operand (systolic r) in
    let diastolic := operand (diastolic r) in
    if Num.lt systolic lit_120 && Num.lt diastolic lit_80 then 1
    else if Num.ge systolic lit_120 && Num.le systolic lit_129
            && Num.lt diastolic lit_80 then 2
    else
      let stage := Z.max (sysStage systolic) (diaStage diastolic) in
      if 4 <=? stage then 4 else 3.

Definition scoreTemperature (temp : JSValue) : Z :=
  match parseNumberStrict temp with
  | None => 0
  | Some t =>
      if Num.le t lit_99_5 then 0
      else if Num.ge t lit_99_6 && Num.le t lit_100_9 then 1
      else if Num.ge t lit_101_0 then 2
      else 0
  end.

Definition scoreAge (age : JSValue) : Z :=
  match parseNumberStrict age with
  | None => 0
  | Some a => if Num.gt a lit_65 then 2 else 1
  end.

(* ================================================================== *)
(** * Data-quality detector *)
(* ================================================================== *)

(** A patient record is an object; a missing field reads as
    [VUndefined]. *)
Abbreviation PatientRecord := (gmap string JSValue).

Definition hasDataQualityIssue (p : PatientRecord) : bool :=
  let bpOk := valid (parseBloodPressure (get p "blood_pressure")) in
  let tOk := bool_decide (parseNumberStrict (get p "temperature") ≠ None) in
  let aOk := bool_decide (parseNumberStrict (get p "age") ≠ None) in
  negb (bpOk && tOk && aOk).

(* ================================================================== *)
(** * Aggregator *)
(* ================================================================== *)

(** The order of the default [Array.prototype.sort] on strings:
    lexicographic on code units. *)
Definition code_unit_le (a b : string) : Prop := String.compare a b ≠ Gt.

#[global] Instance code_unit_le_dec a b : Decision (code_unit_le a b).
Proof. unfold code_unit_le. apply _. Defined.

(** [new Set(arr)]: the elements in the order of their first insertion. *)
Definition Set_add (seen : list string) (x : string) : list string :=
  if decide (x ∈ seen) then seen else seen ++ [x].

Definition Set_from (arr : list string) : list string :=
  fold_left Set_add arr [].

(** [Array.from(new Set(arr)).sort()]; the built-in sort is a merge
    sort here. *)
Definition uniqSort (arr : list string) : list string :=
  merge_sort code_unit_le (Set_from arr).

Record ResultSet := {
  high_risk_patients : list string;
  fever_patients : list string;
  data_quality_issues : list string
}.

(** The three arrays the loop of [analyzePatients] pushes to. *)
Record Lists := {
  highRisk : list string;
  fever : list string;
  dq : list string
}.

Definition push_if (c : bool) (x : string) (arr : list string) : list string :=
  if c then arr ++ [x] else arr.

(** One iteration of the loop over the records. *)
Definition analyze_record (acc : Lists) (p : PatientRecord) : Lists :=
  let id := get p "patient_id" in
  if negb (isNonEmptyString id) then acc
  else match id with
       | VStr id =>
           let bp := scoreBloodPressure (get p "blood_pressure") in
           let tmp := scoreTemperature (get p "temperature") in
           let age := scoreAge (get p "age") in
           let total := bp + tmp + age in
           let tVal := parseNumberStrict (get p "temperature") in
           {| highRisk := push_if (4 <=? total) id (highRisk acc);
              fever := push_if (match tVal with
                                | Some t => Num.ge t lit_99_6
                                | None => false
                                end) id (fever acc);
              dq := push_if (hasDataQualityIssue p) id (dq acc) |}
       | _ => acc
       end.

Definition analyzePatients (patients : list PatientRecord) : ResultSet :=
  let acc := fold_left analyze_record patients
               {| highRisk := []; fever := []; dq := [] |} in
  {| high_risk_patients := uniqSort (highRisk acc);
     fever_patients := uniqSort (fever acc);
     data_quality_issues := uniqSort (dq acc) |}.

(* ================================================================== *)
(** * The network *)
(* ================================================================== *)

(** A thrown [Error], by its message. *)
Inductive Exn := Thrown (message : string).

(** What the program reads of a response: the status, the [retry-after]
    header ([None] when absent), the body as text ([None] when reading it
    fails) and the body parsed as JSON (or the exception of the parse). *)
Record Response := {
  status : Z;
  retry_after : option string;
  text : option string;
  json : Exn + JSValue
}.

(** [res.ok] *)
Definition ok (res : Response) : bool :=
  (200 <=? status res) && (status res <=? 299).

(** What one call of [fetch] comes to. *)
Inductive Outcome :=
  | NetworkFailure (e : Exn)
  | Responded (res : Response).

(** What the program does to the outside. *)
Inductive Event :=
  | EvFetch (url : string) (init : gmap string JSValue)
  | EvSleep (ms : number).

(** The result of an asynchronous function run against a script of
    outcomes: a value, an exception, or [Pending] when the script ends
    before the function does. *)
Inductive Result (A : Type) :=
  | Returned (a : A)
  | Threw (e : Exn)
  | Pending.
Arguments Returned {A} a.
Arguments Threw {A} e.
Arguments Pending {A}.

(** Truthiness. *)
Definition truthy (v : JSValue) : bool :=
  match v with
  | VUndefined | VNull => false
  | VBool b => b
  | VNum n => Num.truthy n
  | VStr s => negb (String.eqb s "")
  | VArr _ | VObj _ => true
  end.

(** The own properties an object spread [{...v}] copies: those of an
    object, the indexed characters of a string or elements of an array,
    none for the other values. *)
Definition spread (v : JSValue) : gmap string JSValue :=
  match v with
  | VObj m => m
  | VStr s =>
      list_to_map (imap (fun i c => (pretty i, VStr (String c EmptyString)))
                        (String.list_ascii_of_string s))
  | VArr l => list_to_map (imap (fun i x => (pretty i, x)) l)
  | _ => ∅
  end.

Definition BASE_URL : string := "https://assessment.ksensetech.com/api".
Definition DEFAULT_LIMIT : nat := 20.
Definition lit_300 : number := Eval vm_compute in Str.to_number "300".
Definition lit_2 : number := Eval vm_compute in Str.to_number "2".
Definition lit_1000 : number := Eval vm_compute in Str.to_number "1000".
Definition lit_5000 : number := Eval vm_compute in Str.to_number "5000".

(** Writing the own properties of [src] over those of [target], as a
    spread inside an object literal does. *)
Definition assign (target src : gmap string JSValue) : gmap string JSValue :=
  src ∪ target.

(** How the body of a [try] block ends. *)
Inductive Step :=
  | Continue
  | Return (data : JSValue)
  | Raise (err : Exn).

Section Client.

(** [process.env.API_KEY] *)
Variable env_API_KEY : option string.

Definition API_KEY : string :=
  match env_API_KEY with
  | Some k =>
      if String.eqb k "" then "ak_ae557ca6698db7f65dd458a9e7aeba13f3f464214c104a48"
      else k
  | None => "ak_ae557ca6698db7f65dd458a9e7aeba13f3f464214c104a48"
  end.

(* ================================================================ *)
(** ** Resilient fetcher *)
(* ================================================================ *)

(** The second argument of [fetch]:
    [{...options, headers: {'x-api-key': API_KEY, ...(options.headers || {})}}] *)
Definition request_headers (options : gmap string JSValue) : gmap string JSValue :=
  let caller := get options "headers" in
  assign (<["x-api-key" := VStr API_KEY]> ∅)
         (spread (if truthy caller then caller else VObj ∅)).

Definition request_init (options : gmap string JSValue) : gmap string JSValue :=
  <["headers" := VObj (request_headers options)]> (assign ∅ options).

(** [Math.min(backoff * 2, 5000)] *)
Definition next_backoff (backoff : number) : number :=
  Num.min (Num.mul backoff lit_2) lit_5000.

(** The [if (res.status === 429)] statement: whether it ends in
    [continue], the backoff after it and the time slept in it. *)
Definition on_429 (maxRetries attempt : nat) (backoff : number) (res : Response)
  : bool * number * list Event :=
  if status res =? 429 then
    let waitMs :=
      match retry_after res with
      | Some retryAfter =>
          if String.eqb retryAfter "" then backoff
          else Num.mul (Str.to_number retryAfter) lit_1000
      | None => backoff
      end in
    ((attempt <=? maxRetries)%nat, next_backoff backoff,
     [EvSleep (Num.max waitMs backoff)])
  else (false, backoff, []).

(** The [if (res.status === 500 || res.status === 503)] statement. *)
Definition on_5xx (maxRetries attempt : nat) (backoff : number) (res : Response)
  : bool * number * list Event :=
  if (status res =? 500) || (status res =? 503) then
    ((attempt <=? maxRetries)%nat, next_backoff backoff, [EvSleep backoff])
  else (false, backoff, []).

(** [new Error(`HTTP ${res.status}: ${text.slice(0, 200)}`)], where
    [text] is [''] when the body cannot be read. *)
Definition http_error (res : Response) : Exn :=
  Thrown ("HTTP " +:+ pretty (status res) +:+ ": "
          +:+ Str.slice0 200 (default "" (text res))).

(** The body of the [try] block, after [fetch] has come to [o]: how it
    ends, the backoff then, and the time slept. *)
Definition try_block (maxRetries attempt : nat) (backoff : number) (o : Outcome)
  : Step * number * list Event :=
  match o with
  | NetworkFailure e => (Raise e, backoff, [])
  | Responded res =>
      let '(continue, backoff, ev1) := on_429 maxRetries attempt backoff res in
      if continue then (Continue, backoff, ev1)
      else
        let '(continue, backoff, ev2) := on_5xx maxRetries attempt backoff res in
        if continue then (Continue, backoff, ev1 ++ ev2)
        else if negb (ok res) then (Raise (http_error res), backoff, ev1 ++ ev2)
        else match json res with
             | inl e => (Raise e, backoff, ev1 ++ ev2)
             | inr data => (Return data, backoff, ev1 ++ ev2)
             end
  end.

(** The [while (true)] loop, one outcome of the script per iteration.
    The result comes with the outcomes left and the events produced. *)
Fixpoint fetch_loop (url : string) (options : gmap string JSValue)
    (maxRetries attempt : nat) (backoff : number) (script : list Outcome)
  : Result JSValue * list Outcome * list Event :=
  let request := EvFetch url (request_init options) in
  match script with
  | [] => (Pending, [], [request])
  | o :: script =>
      let attempt := S attempt in
      let '(step, backoff, evs) := try_block maxRetries attempt backoff o in
      match step with
      | Return data => (Returned data, script, request :: evs)
      | Continue =>
          let '(r, rest, log) :=
            fetch_loop url options maxRetries attempt backoff script in
          (r, rest, request :: evs ++ log)
      | Raise err =>
          if (maxRetries <? attempt)%nat then (Threw err, script, request :: evs)
          else
            let '(r, rest, log) :=
              fetch_loop url options maxRetries attempt (next_backoff backoff) script in
            (r, rest, request :: evs ++ EvSleep backoff :: log)
      end
  end.

Definition fetchWithRetry (url : string) (options : gmap string JSValue)
    (maxRetries : nat) (script : list Outcome)
  : Result JSValue * list Outcome * list Event :=
  fetch_loop url options maxRetries 0 lit_300 script.

(* ================================================================ *)
(** ** Paginator *)
(* ================================================================ *)

Definition page_url (page : nat) : string :=
  BASE_URL +:+ "/patients?page=" +:+ pretty page
           +:+ "&limit=" +:+ pretty DEFAULT_LIMIT.

(** [Array.isArray(payload?.data) ? payload.data : []] *)
Definition page_data (payload : JSValue) : list JSValue :=
  match opt_get payload "data" with
  | VArr l => l
  | _ => []
  end.

(** [payload?.pagination || {}] *)
Definition page_pagination (payload : JSValue) : JSValue :=
  let pag := opt_get payload "pagination" in
  if truthy pag then pag else VObj ∅.

(** [if (typeof pag.totalPages === 'number') totalPages = pag.totalPages];
    [pag] is truthy, so reading a property of it does not throw. *)
Definition track_totalPages (totalPages : option number) (pag : JSValue)
  : option number :=
  match opt_get pag "totalPages" with
  | VNum n => Some n
  | _ => totalPages
  end.

(** The [hasNext] constant of the loop body. *)
Definition hasNext (page : nat) (totalPages : option number) (pag : JSValue)
    (data : list JSValue) : bool :=
  match opt_get pag "hasNext" with
  | VBool b => b
  | _ =>
      if match totalPages with Some n => Num.truthy n | None => false end
      then Num.lt (Num.of_Z (Z.of_nat page)) (operand totalPages)
      else (length data =? DEFAULT_LIMIT)%nat
  end.

(** The [while (true)] loop of [getAllPatients]; [fuel] bounds the
    number of pages. *)
Fixpoint pages_loop (fuel page : nat) (totalPages : option number)
    (all : list JSValue) (script : list Outcome)
  : Result (list JSValue) * list Outcome * list Event :=
  match fuel with
  | O => (Pending, script, [])
  | S fuel =>
      let '(r, script, log) := fetchWithRetry (page_url page) ∅ 8 script in
      match r with
      | Pending => (Pending, script, log)
      | Threw e => (Threw e, script, log)
      | Returned payload =>
          let data := page_data payload in
          let all := all ++ data in
          let pag := page_pagination payload in
          let totalPages := track_totalPages totalPages pag in
          if negb (hasNext page totalPages pag data) then (Returned all, script, log)
          else
            let '(r', script', log') :=
              pages_loop fuel (S page) totalPages all script in
            (r', script', log ++ EvSleep lit_120 :: log')
      end
  end.

(** Every page takes an outcome of the script, so its length bounds the
    number of pages. *)
Definition getAllPatients (script : list Outcome)
  : Result (list JSValue) * list Outcome * list Event :=
  pages_loop (S (length script)) 1 None [] script.

End Client.

(* ================================================================== *)
(** * Submitter *)
(* ================================================================== *)

(** [JSON.stringify] on the result set: an object of three arrays of
    strings, without white space. *)
Module JSON.

Definition quote_mark : ascii := Eval compute in ascii_of_nat 34.
Definition backslash : ascii := Eval compute in ascii_of_nat 92.

Definition hex (n : N) : ascii :=
  nth (N.to_nat n) (String.list_ascii_of_string "0123456789abcdef") "0"%char.

(** A code unit inside a quoted string: the short escapes, [\u00xx] for
    the other control characters, the character itself otherwise. *)
Definition escape (c : ascii) : string :=
  let n := N_of_ascii c in
  if (n =? 8)%N then String backslash "b"
  else if (n =? 9)%N then String backslash "t"
  else if (n =? 10)%N then String backslash "n"
  else if (n =? 12)%N then String backslash "f"
  else if (n =? 13)%N then String backslash "r"
  else if (n =? 34)%N then String backslash (String quote_mark "")
  else if (n =? 92)%N then String backslash (String backslash "")
  else if (n <? 32)%N then
    String backslash ("u00" +:+ String (hex (n / 16)) (String (hex (n mod 16)) ""))
  else String c "".

Fixpoint escape_all (s : string) : string :=
  match s with
  | EmptyString => EmptyString
  | String c s' => escape c +:+ escape_all s'
  end.

Definition quote (s : string) : string :=
  String quote_mark (escape_all s +:+ String quote_mark "").

Fixpoint elements (l : list string) : string :=
  match l with
  | [] => ""
  | [x] => quote x
  | x :: l' => quote x +:+ "," +:+ elements l'
  end.

Definition array (l : list string) : string := "[" +:+ elements l +:+ "]".

Definition stringify (r : ResultSet) : string :=
  "{" +:+ quote "high_risk_patients" +:+ ":" +:+ array (high_risk_patients r)
  +:+ "," +:+ quote "fever_patients" +:+ ":" +:+ array (fever_patients r)
  +:+ "," +:+ quote "data_quality_issues" +:+ ":" +:+ array (data_quality_issues r)
  +:+ "}".

End JSON.

(** The options [submitResults] passes to [fetchWithRetry]. *)
Definition submit_options (results : ResultSet) : gmap string JSValue :=
  {[ "method" := VStr "POST";
     "headers" := VObj {[ "Content-Type" := VStr "application/json" ]};
     "body" := VStr (JSON.stringify results) ]}.

Definition submitResults (env_API_KEY : option string) (results : ResultSet)
    (script : list Outcome) : Result JSValue * list Outcome * list Event :=
  fetchWithRetry env_API_KEY (BASE_URL +:+ "/submit-assessment")
    (submit_options results) 8 script.

(* ================================================================== *)
(** * Vocabulary of the statements *)
(* ================================================================== *)

(** A string of white space only. *)
Fixpoint all_ws (s : string) : bool :=
  match s with
  | EmptyString => true
  | String c s' => Str.is_ws c && all_ws s'
  end.

(** The three arrays before the first record, and what one record adds
    to them. *)
Definition no_lists : Lists := {| highRisk := []; fever := []; dq := [] |}.

Definition adds (p : PatientRecord) : Lists := analyze_record no_lists p.

(** The three scores of a record. *)
Definition scores (p : PatientRecord) : Z * Z * Z :=
  (scoreBloodPressure (get p "blood_pressure"),
   scoreTemperature (get p "temperature"),
   scoreAge (get p "age")).

(** The number of calls of [fetch] in a log. *)
Fixpoint fetches (log : list Event) : nat :=
  match log with
  | [] => 0
  | EvFetch _ _ :: log => S (fetches log)
  | EvSleep _ :: log => fetches log
  end.

(** What an attempt comes to when no retry is left: the parsed body,
    or the error met. *)
Definition outcome_result (o : Outcome) : Exn + JSValue :=
  match o with
  | NetworkFailure e => inl e
  | Responded res => if negb (ok res) then inl (http_error res) else json res
  end.

(** An attempt that meets an error. *)
Definition failed (o : Outcome) : Prop := ∃ e, outcome_result o = inl e.

(** The continuation decision in the words of the claim C4: the boolean
    [hasNext] flag if there is one; else, if a total page count was
    observed, zero included, whether [page < totalPages]; else whether
    the page is full. *)
Definition claimed_hasNext (page : nat) (totalPages : option number)
    (pag : JSValue) (data : list JSValue) : bool :=
  match opt_get pag "hasNext" with
  | VBool b => b
  | _ =>
      match totalPages with
      | Some n => Num.lt (Num.of_Z (Z.of_nat page)) n
      | None => (length data =? 20)%nat
      end
  end.

(** The time slept in a log, wait by wait. *)
Fixpoint sleeps (log : list Event) : list number :=
  match log with
  | [] => []
  | EvFetch _ _ :: log => sleeps log
  | EvSleep ms :: log => ms :: sleeps log
  end.

(** The requests of a log, each as address and options. *)
Fixpoint requests (log : list Event) : list (string * gmap string JSValue) :=
  match log with
  | [] => []
  | EvFetch url init :: log => (url, init) :: requests log
  | EvSleep _ :: log => requests log
  end.

(** The waits of the backoff in milliseconds: 300 doubled up to the cap
    of 5000. *)
Definition backoff_schedule : list number :=
  map Num.of_Z [300; 600; 1200; 2400; 4800; 5000; 5000; 5000; 5000; 5000].

(** An outcome that names no wait of its own: anything but an answer
    429 with a [retry-after] header that is not empty. *)
Definition no_retry_after (o : Outcome) : bool :=
  match o with
  | NetworkFailure _ => true
  | Responded res =>
      negb (status res =? 429)
      || match retry_after res with
         | Some retryAfter => String.eqb retryAfter ""
         | None => true
         end
  end.

(** A page answered at once, with its records and nothing else. *)
Definition plain_page (data : list JSValue) : Outcome :=
  Responded {| status := 200; retry_after := None; text := None;
               json := inr (VObj {[ "data" := VArr data ]}) |}.

(** A page answered at once, with its records and a [hasNext] flag. *)
Definition flagged_page (data : list JSValue) (more : bool) : Outcome :=
  Responded {| status := 200; retry_after := None; text := None;
               json := inr (VObj {[ "data" := VArr data;
                                    "pagination" := VObj {[ "hasNext" := VBool more ]} ]}) |}.

(** Reading back the characters of a quoted string up to its closing
    quote mark: the characters read and what follows the quote mark. *)
Definition unhex (c : ascii) : option N :=
  let n := N_of_ascii c in
  if ((48 <=? n) && (n <=? 57))%N then Some (n - 48)%N
  else if ((97 <=? n) && (n <=? 102))%N then Some (n - 87)%N
  else None.

Definition unescape_short (e : ascii) : option ascii :=
  if Ascii.eqb e "b" then Some (ascii_of_nat 8)
  else if Ascii.eqb e "t" then Some (ascii_of_nat 9)
  else if Ascii.eqb e "n" then Some (ascii_of_nat 10)
  else if Ascii.eqb e "f" then Some (ascii_of_nat 12)
  else if Ascii.eqb e "r" then Some (ascii_of_nat 13)
  else if Ascii.eqb e JSON.quote_mark then Some JSON.quote_mark
  else if Ascii.eqb e JSON.backslash then Some JSON.backslash
  else None.

Fixpoint read_chars (s : string) : option (string * string) :=
  match s with
  | EmptyString => None
  | String c s' =>
      if Ascii.eqb c JSON.quote_mark then Some (EmptyString, s')
      else if Ascii.eqb c JSON.backslash then
        match s' with
        | String e s'' =>
            if Ascii.eqb e "u" then
              match s'' with
              | String _ (String _ (String h1 (String h2 s3))) =>
                  match unhex h1, unhex h2, read_chars s3 with
                  | Some a, Some b, Some (t, r) =>
                      Some (String (ascii_of_N (16 * a + b)) t, r)
                  | _, _, _ => None
                  end
              | _ => None
              end
            else
              match unescape_short e, read_chars s'' with
              | Some x, Some (t, r) => Some (String x t, r)
              | _, _ => None
              end
        | EmptyString => None
        end
      else
        match read_chars s' with
        | Some (t, r) => Some (String c t, r)
        | None => None
        end
  end.

(** The total score of a record. *)
Definition total (p : PatientRecord) : Z :=
  scoreBloodPressure (get p "blood_pressure")
  + scoreTemperature (get p "temperature")
  + scoreAge (get p "age").

(** The parsed temperature of a record is a fever. *)
Definition has_fever (p : PatientRecord) : Prop :=
  ∃ t, parseNumberStrict (get p "temperature") = Some t
       ∧ Num.ge t lit_99_6 = true.

(** A string without the character. *)
Fixpoint free_of (c : ascii) (s : string) : bool :=
  match s with
  | EmptyString => true
  | String x s' => negb (Ascii.eqb x c) && free_of c s'
  end.

(* ================================================================== *)
(** * Sample inputs *)
(* ================================================================== *)

(** A response that is no success and none of the retried statuses, and
    a success. *)
Definition sample_404 : Response :=
  {| status := 404; retry_after := None; text := Some "not found";
     json := inl (Thrown "Unexpected token") |}.

Definition sample_ok : Response :=
  {| status := 200; retry_after := None; text := Some "{}";
     json := inr (VObj ∅) |}.

Definition sample_request : Event := EvFetch "u" (request_init None ∅).

(** Nine failures, then a success that comes too late. *)
Definition exhausting_script : list Outcome :=
  replicate 9 (Responded sample_404) ++ [Responded sample_ok].

(** Options whose headers carry a key of the caller's own. *)
Definition caller_key_options : gmap string JSValue :=
  {[ "headers" := VObj {[ "x-api-key" := VStr "caller-key" ]} ]}.

(** A record whose three fields all fail to parse. *)
Definition unreadable_record : PatientRecord :=
  {[ "patient_id" := VStr "P1"; "blood_pressure" := VStr "N/A";
     "temperature" := VStr "TEMP_ERROR"; "age" := VNull ]}.

(** Two records that differ in the temperature only, which parses in
    neither or is normal. *)
Definition cool_record : PatientRecord :=
  {[ "patient_id" := VStr "P2"; "blood_pressure" := VStr "115/75";
     "temperature" := VNum lit_80; "age" := VStr "40" ]}.

Definition no_temperature_record : PatientRecord :=
  {[ "patient_id" := VStr "P3"; "blood_pressure" := VStr "115/75";
     "age" := VStr "40" ]}.

(** A record with a temperature between the two brackets. *)
Definition gap_record : PatientRecord :=
  {[ "patient_id" := VStr "P4"; "temperature" := VStr "100.95" ]}.

(** A record with a blank identifier, a fever, and a blood pressure and
    an age that do not parse. *)
Definition blank_id_record : PatientRecord :=
  {[ "patient_id" := VStr "  "; "blood_pressure" := VStr "N/A";
     "temperature" := VStr "103"; "age" := VStr "unknown" ]}.

(** Pagination metadata with a total page count of zero, and a full page
    of records. *)
Definition zero_pages : JSValue := VObj {[ "totalPages" := VNum (Num.of_Z 0) ]}.
Definition full_page : list JSValue := replicate 20 (VObj ∅).

(** A page as the service sends it. *)
Definition page_response (data : list JSValue) (pag : JSValue) : Outcome :=
  Responded {| status := 200; retry_after := None; text := None;
               json := inr (VObj {[ "data" := VArr data; "pagination" := pag ]}) |}.

(* ================================================================== *)
(** * Order of numbers *)
(* ================================================================== *)

Module NumFacts.

Ltac cases_compare :=
  repeat match goal with
    | H : context [Pos.compare_cont Eq ?x ?y] |- _ =>
        change (Pos.compare_cont Eq x y) with (Pos.compare x y) in H
    | |- context [Pos.compare_cont Eq ?x ?y] =>
        change (Pos.compare_cont Eq x y) with (Pos.compare x y)
    end;
  repeat match goal with
    | H : context [Z.compare ?x ?y] |- _ => destruct (Z.compare_spec x y)
    | |- context [Z.compare ?x ?y] => destruct (Z.compare_spec x y)
    | H : context [Pos.compare ?x ?y] |- _ => destruct (Pos.compare_spec x y)
    | |- context [Pos.compare ?x ?y] => destruct (Pos.compare_spec x y)
    end;
  simpl in *; subst; try discriminate; try reflexivity; try lia.

Ltac by_cases a :=
  destruct a as [[]|[]| |[] ? ?]; simpl in *; try discriminate; try reflexivity.

(** [a < b] excludes [b <= a]. *)
Lemma lt_not_ge (a b : number) : Num.lt a b = true → Num.le b a = false.
Proof.
  unfold Num.lt, Num.le, SFltb, SFleb, SFcompare.
  by_cases a; by_cases b; intros H; cases_compare.
Qed.

(** [a <= b] and [b < c] give [a <= c]. *)
Lemma le_lt_trans (a b c : number) :
  Num.le a b = true → Num.lt b c = true → Num.le a c = true.
Proof.
  unfold Num.lt, Num.le, SFltb, SFleb, SFcompare.
  by_cases a; by_cases b; by_cases c; intros H1 H2; cases_compare.
Qed.

End NumFacts.

(* ================================================================== *)
(** * Strings: facts on [trim] and [split], and the order of the sort *)
(* ================================================================== *)

Module StrFacts.

Lemma all_ws_trim_start s : all_ws (Str.trim_start s) = all_ws s.
Proof.
  induction s as [|c s IH]; simpl; [done|].
  destruct (Str.is_ws c) eqn:Hc; simpl; [done|]. by rewrite Hc.
Qed.

Lemma trim_end_empty s : Str.trim_end s = EmptyString → all_ws s = true.
Proof.
  induction s as [|c s IH]; simpl; [done|].
  destruct (Str.trim_end s); [|done].
  destruct (Str.is_ws c); [auto|done].
Qed.

(** Only white space trims to the empty string. *)
Lemma trim_empty s : Str.trim s = EmptyString → all_ws s = true.
Proof.
  intros H. apply trim_end_empty in H. by rewrite all_ws_trim_start in H.
Qed.

(** White space holds no separator that is not white space. *)
Lemma split_all_ws sep s :
  Str.is_ws sep = false → all_ws s = true → Str.split sep s = [s].
Proof.
  intros Hsep. induction s as [|c s IH]; simpl; [done|].
  intros [Hc Hs]%andb_true_iff.
  destruct (Ascii.eqb c sep) eqn:E.
  - apply Ascii.eqb_eq in E. congruence.
  - by rewrite IH.
Qed.

(** A string that splits on ['/'] into two parts is not blank. *)
Lemma split_two_nonempty s p0 p1 :
  Str.split "/" s = [p0; p1] → isNonEmptyString (VStr s) = true.
Proof.
  intros Hsplit. simpl.
  destruct (Str.trim s) eqn:Ht; [|done].
  apply trim_empty in Ht.
  rewrite (split_all_ws "/" s) in Hsplit; [done|done|done].
Qed.

Lemma split_two_not_empty s p0 p1 :
  Str.split "/" s = [p0; p1] → s ≠ EmptyString.
Proof. by intros H ->. Qed.

Lemma ascii_compare_lt_le (a b c : ascii) :
  Ascii.compare a b = Lt → Ascii.compare b c ≠ Gt → Ascii.compare a c = Lt.
Proof.
  unfold Ascii.compare. rewrite N.compare_le_iff, !N.compare_lt_iff. lia.
Qed.

#[global] Instance code_unit_le_trans : Transitive code_unit_le.
Proof.
  unfold code_unit_le. intros a. induction a as [|x a IH]; intros [|y b] [|z c];
    simpl; try done.
  destruct (Ascii.compare x y) eqn:Hxy; [| |done].
  - apply Ascii.compare_eq_iff in Hxy as ->.
    destruct (Ascii.compare y z); [eauto|done|done].
  - intros _ Hyz.
    assert (Ascii.compare y z ≠ Gt) as Hle by (destruct (Ascii.compare y z); done).
    by rewrite (ascii_compare_lt_le x y z).
Qed.

#[global] Instance code_unit_le_total : Total code_unit_le.
Proof.
  intros a b. unfold code_unit_le. rewrite (String.compare_antisym a b).
  destruct (String.compare b a); simpl; auto.
Qed.

#[global] Instance code_unit_le_antisym : AntiSymm eq code_unit_le.
Proof.
  intros a b. unfold code_unit_le. rewrite (String.compare_antisym b a).
  destruct (String.compare a b) eqn:E; simpl; try done.
  intros _ _. by apply String.compare_eq_iff.
Qed.

End StrFacts.

(* ================================================================== *)
(** * [uniqSort]: what it holds and in which order *)
(* ================================================================== *)

Module SortFacts.

Lemma Set_add_elem_of seen x y : y ∈ Set_add seen x ↔ y ∈ seen ∨ y = x.
Proof.
  unfold Set_add. case_decide; [|set_solver].
  split; [auto|]. intros [?| ->]; done.
Qed.

Lemma Set_add_NoDup seen x : NoDup seen → NoDup (Set_add seen x).
Proof.
  unfold Set_add. intros Hnd. case_decide; [done|].
  apply NoDup_app. split_and!; [done|set_solver|apply NoDup_singleton].
Qed.

Lemma fold_Set_add_elem_of arr seen y :
  y ∈ fold_left Set_add arr seen ↔ y ∈ seen ∨ y ∈ arr.
Proof.
  revert seen. induction arr as [|x arr IH]; intros seen; simpl.
  - set_solver.
  - rewrite IH, Set_add_elem_of. set_solver.
Qed.

Lemma fold_Set_add_NoDup arr seen :
  NoDup seen → NoDup (fold_left Set_add arr seen).
Proof.
  revert seen. induction arr as [|x arr IH]; intros seen Hnd; simpl; [done|].
  by apply IH, Set_add_NoDup.
Qed.

Lemma Set_from_elem_of arr y : y ∈ Set_from arr ↔ y ∈ arr.
Proof. unfold Set_from. rewrite fold_Set_add_elem_of. set_solver. Qed.

Lemma Set_from_NoDup arr : NoDup (Set_from arr).
Proof. apply fold_Set_add_NoDup, NoDup_nil_2. Qed.

Lemma uniqSort_elem_of arr y : y ∈ uniqSort arr ↔ y ∈ arr.
Proof.
  unfold uniqSort. rewrite merge_sort_Permutation. apply Set_from_elem_of.
Qed.

Lemma uniqSort_NoDup arr : NoDup (uniqSort arr).
Proof.
  unfold uniqSort. rewrite merge_sort_Permutation. apply Set_from_NoDup.
Qed.

Lemma uniqSort_sorted arr : StronglySorted code_unit_le (uniqSort arr).
Proof. unfold uniqSort. apply StronglySorted_merge_sort; apply _. Qed.

(** The result depends on the set of elements only. *)
Lemma uniqSort_ext arr1 arr2 :
  (∀ y, y ∈ arr1 ↔ y ∈ arr2) → uniqSort arr1 = uniqSort arr2.
Proof.
  intros Hsame.
  apply (StronglySorted_unique code_unit_le); try apply uniqSort_sorted.
  apply NoDup_Permutation; try apply uniqSort_NoDup.
  intros y. by rewrite !uniqSort_elem_of.
Qed.

End SortFacts.

(* ================================================================== *)
(** * The loop of [analyzePatients] *)
(* ================================================================== *)

Module AnalyzeFacts.

Lemma push_if_app c x arr : push_if c x arr = arr ++ push_if c x [].
Proof. unfold push_if. destruct c; simpl; by rewrite ?app_nil_r. Qed.

Lemma analyze_record_adds acc p :
  analyze_record acc p =
    {| highRisk := highRisk acc ++ highRisk (adds p);
       fever := fever acc ++ fever (adds p);
       dq := dq acc ++ dq (adds p) |}.
Proof.
  unfold adds, analyze_record.
  destruct (negb (isNonEmptyString (get p "patient_id")));
    [destruct acc; simpl; by rewrite !app_nil_r|].
  destruct (get p "patient_id"); simpl;
    try (destruct acc; simpl; by rewrite !app_nil_r).
  f_equal; apply push_if_app.
Qed.

Lemma fold_analyze_record patients acc :
  fold_left analyze_record patients acc =
    {| highRisk := highRisk acc ++ concat (map (highRisk ∘ adds) patients);
       fever := fever acc ++ concat (map (fever ∘ adds) patients);
       dq := dq acc ++ concat (map (dq ∘ adds) patients) |}.
Proof.
  revert acc. induction patients as [|p patients IH]; intros acc; simpl.
  - destruct acc; simpl; by rewrite !app_nil_r.
  - rewrite IH, analyze_record_adds. simpl. by rewrite <- !app_assoc.
Qed.

Lemma elem_of_concat_map {A} (f : A → list string) (l : list A) (x : string) :
  x ∈ concat (map f l) ↔ ∃ p, p ∈ l ∧ x ∈ f p.
Proof.
  induction l as [|a l IH]; simpl.
  - set_solver.
  - rewrite elem_of_app, IH. split.
    + intros [?|(p & ? & ?)]; [exists a|exists p]; set_solver.
    + intros (p & [->|?]%elem_of_cons & ?); [by left|right; eauto].
Qed.

(** Membership in the output lists, record by record. *)
Lemma elem_of_high_risk patients x :
  x ∈ high_risk_patients (analyzePatients patients)
  ↔ ∃ p, p ∈ patients ∧ x ∈ highRisk (adds p).
Proof.
  unfold analyzePatients. simpl.
  rewrite SortFacts.uniqSort_elem_of, fold_analyze_record. simpl.
  apply elem_of_concat_map.
Qed.

Lemma elem_of_fever patients x :
  x ∈ fever_patients (analyzePatients patients)
  ↔ ∃ p, p ∈ patients ∧ x ∈ fever (adds p).
Proof.
  unfold analyzePatients. simpl.
  rewrite SortFacts.uniqSort_elem_of, fold_analyze_record. simpl.
  apply elem_of_concat_map.
Qed.

Lemma elem_of_dq patients x :
  x ∈ data_quality_issues (analyzePatients patients)
  ↔ ∃ p, p ∈ patients ∧ x ∈ dq (adds p).
Proof.
  unfold analyzePatients. simpl.
  rewrite SortFacts.uniqSort_elem_of, fold_analyze_record. simpl.
  apply elem_of_concat_map.
Qed.

(** Whatever a record adds is its own, usable, identifier. *)
Lemma adds_usable p x :
  x ∈ highRisk (adds p) ∨ x ∈ fever (adds p) ∨ x ∈ dq (adds p) →
  get p "patient_id" = VStr x ∧ isNonEmptyString (VStr x) = true.
Proof.
  unfold adds, analyze_record.
  destruct (isNonEmptyString (get p "patient_id")) eqn:Hid; simpl;
    [|set_solver].
  destruct (get p "patient_id") as [| | | |s| |]; simpl; try set_solver.
  unfold push_if. intros H.
  assert (x = s) as ->; [|done].
  repeat match type of H with
    | context [if ?c then _ else _] => destruct c
    end; set_solver.
Qed.

(** Two lists of records with the same elements give the same result. *)
Lemma analyzePatients_ext l1 l2 :
  (∀ p : PatientRecord, p ∈ l1 ↔ p ∈ l2) → analyzePatients l1 = analyzePatients l2.
Proof.
  intros Hsame. unfold analyzePatients.
  rewrite !fold_analyze_record. simpl.
  f_equal; apply SortFacts.uniqSort_ext; intros y;
    rewrite !elem_of_concat_map; naive_solver.
Qed.

End AnalyzeFacts.

(* ================================================================== *)
(** * The retry loop *)
(* ================================================================== *)

Module FetchFacts.

Lemma fetches_app l1 l2 : fetches (l1 ++ l2) = (fetches l1 + fetches l2)%nat.
Proof. induction l1 as [|[] l1 IH]; simpl; lia. Qed.

Section Loop.

Variable env : option string.
Variables (url : string) (options : gmap string JSValue) (maxRetries : nat).

Let request := EvFetch url (request_init env options).

(** How the [try] block ends. *)
Lemma try_block_step attempt backoff o :
  (try_block maxRetries attempt backoff o).1.1 =
    match o with
    | NetworkFailure e => Raise e
    | Responded res =>
        if ((status res =? 429) || (status res =? 500) || (status res =? 503))
           && (attempt <=? maxRetries)%nat
        then Continue
        else match outcome_result o with
             | inl e => Raise e
             | inr data => Return data
             end
    end.
Proof.
  destruct o as [e|res]; [done|].
  unfold try_block, on_429, on_5xx, outcome_result.
  destruct (status res =? 429) eqn:E429.
  - apply Z.eqb_eq in E429.
    assert ((status res =? 500) = false) as -> by lia.
    assert ((status res =? 503) = false) as -> by lia.
    simpl. destruct (attempt <=? maxRetries)%nat; simpl; [done|].
    destruct (negb (ok res)); [done|]. by destruct (json res).
  - simpl. destruct ((status res =? 500) || (status res =? 503)); simpl.
    + destruct (attempt <=? maxRetries)%nat; simpl; [done|].
      destruct (negb (ok res)); [done|]. by destruct (json res).
    + destruct (negb (ok res)); [done|]. by destruct (json res).
Qed.

(** The [try] block calls [fetch] no second time. *)
Lemma try_block_fetches attempt backoff o :
  fetches (try_block maxRetries attempt backoff o).2 = 0%nat.
Proof.
  destruct o as [e|res]; [done|].
  unfold try_block, on_429, on_5xx.
  destruct (status res =? 429); destruct ((status res =? 500) || (status res =? 503));
    simpl; destruct (attempt <=? maxRetries)%nat; simpl; try done;
    destruct (negb (ok res)); try done; by destruct (json res).
Qed.

Lemma fetch_loop_nil attempt backoff :
  fetch_loop env url options maxRetries attempt backoff [] = (Pending, [], [request]).
Proof. done. Qed.

Lemma fetch_loop_cons attempt backoff o script :
  fetch_loop env url options maxRetries attempt backoff (o :: script) =
    let '(step, backoff, evs) := try_block maxRetries (S attempt) backoff o in
    match step with
    | Return data => (Returned data, script, request :: evs)
    | Continue =>
        let '(r, rest, log) :=
          fetch_loop env url options maxRetries (S attempt) backoff script in
        (r, rest, request :: evs ++ log)
    | Raise err =>
        if (maxRetries <? S attempt)%nat then (Threw err, script, request :: evs)
        else
          let '(r, rest, log) :=
            fetch_loop env url options maxRetries (S attempt)
                       (next_backoff backoff) script in
          (r, rest, request :: evs ++ EvSleep backoff :: log)
    end.
Proof. done. Qed.

(** A run uses a prefix of the script, calls [fetch] once per outcome
    used (and once more when the script ends first), stays within
    the attempts left, and sends the same request every time. *)
Lemma fetch_loop_run script : ∀ attempt backoff r rest log,
  (attempt ≤ maxRetries)%nat →
  fetch_loop env url options maxRetries attempt backoff script = (r, rest, log) →
  ∃ used,
    script = used ++ rest
    ∧ fetches log = (length used + if r is Pending then 1 else 0)%nat
    ∧ (fetches log + attempt ≤ S maxRetries)%nat
    ∧ (r = Pending → rest = [])
    ∧ Forall (λ ev, if ev is EvFetch _ _ then ev = request else True) log.
Proof.
  induction script as [|o script IH]; intros attempt backoff r rest log Hle.
  - rewrite fetch_loop_nil. intros [= <- <- <-]. exists []. simpl.
    split_and!; try done; [lia|]. by repeat constructor.
  - rewrite fetch_loop_cons.
    pose proof (try_block_step (S attempt) backoff o) as Hstep.
    pose proof (try_block_fetches (S attempt) backoff o) as Hevs.
    destruct (try_block maxRetries (S attempt) backoff o) as [[step backoff'] evs].
    cbn [fst snd] in Hstep, Hevs.
    assert (Forall (λ ev, if ev is EvFetch _ _ then ev = request else True) evs)
      as Hsleeps.
    { clear -Hevs. induction evs as [|[] evs IHevs]; simpl in *;
        [constructor|done|constructor; auto]. }
    destruct step as [|data|err].
    + assert (S attempt ≤ maxRetries)%nat as Hle'.
      { destruct o as [e|res]; [done|].
        destruct (S attempt <=? maxRetries)%nat eqn:E; [by apply Nat.leb_le|].
        rewrite andb_false_r in Hstep. by destruct (outcome_result _). }
      destruct (fetch_loop env url options maxRetries (S attempt) backoff' script)
        as [[r' rest'] log'] eqn:Hrec.
      intros [= <- <- <-].
      destruct (IH _ _ _ _ _ Hle' Hrec) as (used & -> & Hn & Hb & Hp & Hall).
      exists (o :: used). simpl. rewrite fetches_app, Hevs.
      split_and!; try done; [simpl; lia|simpl; lia|].
      constructor; [done|]. by apply Forall_app.
    + intros [= <- <- <-]. exists [o]. simpl. rewrite Hevs.
      split_and!; try done; [lia|]. by constructor.
    + destruct (maxRetries <? S attempt)%nat eqn:Hlast.
      * intros [= <- <- <-]. exists [o]. simpl. rewrite Hevs.
        split_and!; try done; [lia|]. by constructor.
      * apply Nat.ltb_ge in Hlast.
        destruct (fetch_loop env url options maxRetries (S attempt)
                    (next_backoff backoff') script) as [[r' rest'] log'] eqn:Hrec.
        intros [= <- <- <-].
        destruct (IH _ _ _ _ _ Hlast Hrec) as (used & -> & Hn & Hb & Hp & Hall).
        exists (o :: used). simpl. rewrite fetches_app, Hevs.
        split_and!; try done; [simpl; lia|simpl; lia|].
        constructor; [done|]. apply Forall_app. split; [done|]. by constructor.
Qed.

(** After failures on all the attempts but the last, the last one
    decides: its value is returned or its error thrown. *)
Lemma fetch_loop_last pre : ∀ attempt backoff o rest,
  (length pre + attempt)%nat = maxRetries →
  Forall failed pre →
  ∃ log,
    fetch_loop env url options maxRetries attempt backoff (pre ++ o :: rest) =
      (match outcome_result o with
       | inl e => Threw e
       | inr data => Returned data
       end, rest, log).
Proof.
  induction pre as [|x pre IH]; intros attempt backoff o rest Hlen Hfail.
  - simpl in Hlen. subst attempt.
    change ([] ++ o :: rest) with (o :: rest). rewrite fetch_loop_cons.
    pose proof (try_block_step (S maxRetries) backoff o) as Hstep.
    destruct (try_block maxRetries (S maxRetries) backoff o) as [[step backoff'] evs].
    cbn [fst snd] in Hstep. subst step.
    assert ((S maxRetries <=? maxRetries)%nat = false) as Hgt by (apply Nat.leb_gt; lia).
    assert ((maxRetries <? S maxRetries)%nat = true) as Hlt by (apply Nat.ltb_lt; lia).
    destruct o as [e|res].
    + rewrite Hlt. simpl. eauto.
    + rewrite Hgt, andb_false_r.
      destruct (outcome_result (Responded res)); [rewrite Hlt|]; eauto.
  - simpl in Hlen. apply Forall_cons in Hfail as [[e He] Hfail].
    change ((x :: pre) ++ o :: rest) with (x :: (pre ++ o :: rest)).
    rewrite fetch_loop_cons.
    pose proof (try_block_step (S attempt) backoff x) as Hstep.
    destruct (try_block maxRetries (S attempt) backoff x) as [[step backoff'] evs].
    cbn [fst snd] in Hstep.
    assert ((maxRetries <? S attempt)%nat = false) as Hlt by (apply Nat.ltb_ge; lia).
    assert (step = Continue ∨ step = Raise e) as [->| ->].
    { subst step. destruct x as [e'|res].
      - simpl in He. injection He as ->. by right.
      - rewrite He. destruct (_ && _); auto. }
    + destruct (IH (S attempt) backoff' o rest) as [log ->]; [lia|done|]. eauto.
    + rewrite Hlt.
      destruct (IH (S attempt) (next_backoff backoff') o rest) as [log ->];
        [lia|done|]. eauto.
Qed.

(** A run calls [fetch] at least once, and one that ends has used an
    outcome of the script. *)
Lemma fetch_loop_progress script attempt backoff r rest log :
  (attempt ≤ maxRetries)%nat →
  fetch_loop env url options maxRetries attempt backoff script = (r, rest, log) →
  r ≠ Pending → (length rest < length script)%nat.
Proof.
  intros Hle Hrun Hr.
  assert (1 ≤ fetches log)%nat as Hone.
  { destruct script as [|o script'].
    - rewrite fetch_loop_nil in Hrun. by injection Hrun as <- <- <-.
    - rewrite fetch_loop_cons in Hrun.
      destruct (try_block maxRetries (S attempt) backoff o) as [[[|data|err] b] evs];
        repeat match type of Hrun with
          | context [fetch_loop ?e ?u ?o ?m ?a ?b ?s] =>
              destruct (fetch_loop e u o m a b s) as [[? ?] ?]
          | context [if ?c then _ else _] => destruct c
          end; injection Hrun as <- <- <-; simpl; lia. }
  destruct (fetch_loop_run script attempt backoff r rest log Hle Hrun)
    as (used & -> & Hn & _ & _ & _).
  rewrite length_app. destruct r; try done; lia.
Qed.

End Loop.

(** The fuel of [pages_loop] is no limit once it exceeds the length of
    the script: every page uses an outcome. *)
Lemma pages_loop_fuel env fuel1 : ∀ fuel2 script page totalPages all,
  (length script < fuel1)%nat → (length script < fuel2)%nat →
  pages_loop env fuel1 page totalPages all script
  = pages_loop env fuel2 page totalPages all script.
Proof.
  induction fuel1 as [|fuel1 IH]; intros [|fuel2] script page totalPages all H1 H2;
    try lia.
  cbn [pages_loop].
  destruct (fetchWithRetry env (page_url page) ∅ 8 script) as [[r rest] log] eqn:Hrun.
  destruct r as [payload|e|]; try done.
  destruct (negb (hasNext _ _ _ _)); [done|].
  assert (length rest < length script)%nat as Hlt.
  { eapply (fetch_loop_progress env); [|exact Hrun|done]. lia. }
  by rewrite (IH fuel2) by lia.
Qed.

End FetchFacts.

(* ================================================================== *)
(** * The model at work *)
(* ================================================================== *)

Module Examples.

Example parseNumberStrict_examples :
  parseNumberStrict (VStr " 12.5 ") = Some (Num.of_ratio false 25 2)
  ∧ parseNumberStrict (VNum lit_65) = Some lit_65
  ∧ map parseNumberStrict
      [VStr ""; VStr "   "; VStr "12a"; VStr "Infinity"; VNum Num.nan;
       VNum (S754_infinity false); VNull; VUndefined; VBool true; VArr []]
    = replicate 10 None.
Proof. split_and!; reflexivity. Qed.

Example scoreTemperature_examples :
  map scoreTemperature
    [VStr "99.5"; VNum lit_99_6; VStr "100.9"; VStr "101.0"; VStr "hot"; VNull]
  = [0; 1; 1; 2; 0; 0].
Proof. reflexivity. Qed.

Example scoreAge_examples :
  map scoreAge [VStr "40"; VStr "66"; VNum lit_65; VStr "old"; VStr "-5"]
  = [1; 2; 1; 0; 1].
Proof. reflexivity. Qed.

(** Two answers 429, the first with a [retry-after] of two seconds, then
    a success: the waits are 2000 ms and 600 ms. *)
Example fetchWithRetry_waits_on_429 :
  fetchWithRetry None "u" ∅ 8
    [Responded {| status := 429; retry_after := Some "2"; text := None;
                  json := inl (Thrown "Unexpected token") |};
     Responded {| status := 429; retry_after := None; text := None;
                  json := inl (Thrown "Unexpected token") |};
     Responded sample_ok]
  = (Returned (VObj ∅), [],
     [sample_request; EvSleep (Num.of_Z 2000);
      sample_request; EvSleep (Num.of_Z 600);
      sample_request]).
Proof. reflexivity. Qed.

(** The backoff after each of seven doublings from 300 ms. *)
Example next_backoff_examples :
  map (λ n, Nat.iter n next_backoff lit_300) (seq 0 7)
  = map Num.of_Z [300; 600; 1200; 2400; 4800; 5000; 5000].
Proof. reflexivity. Qed.

(** Without metadata the paginator stops at the first page that is not
    full. *)
Example getAllPatients_stops_on_short_page :
  (getAllPatients None
     [page_response full_page VNull; page_response full_page VNull;
      page_response (replicate 3 (VObj ∅)) VNull;
      page_response full_page VNull]).1
  = (Returned (replicate 43 (VObj ∅)), [page_response full_page VNull]).
Proof. reflexivity. Qed.

End Examples.

(* ================================================================== *)
(** * Resilient fetcher: the claims *)
(* ================================================================== *)

(** C1 (the code departs from the claim). A response that is not ok and
    whose status is none of 429, 500 and 503 does not make
    [fetchWithRetry] fail at once: the error thrown inside the [try]
    block is caught by the [catch] of the same loop, which sleeps for the
    backoff of 300 ms and calls [fetch] again, with the backoff doubled. *)
Theorem fetchWithRetry_retries_other_status env url options res script :
  ok res = false → status res ≠ 429 → status res ≠ 500 → status res ≠ 503 →
  fetchWithRetry env url options 8 (Responded res :: script) =
    (let '(r, rest, log) :=
       fetch_loop env url options 8 1 (next_backoff lit_300) script in
     (r, rest, EvFetch url (request_init env options) :: EvSleep lit_300 :: log)).
Proof.
  intros Hok H429 H500 H503.
  unfold fetchWithRetry. rewrite FetchFacts.fetch_loop_cons.
  unfold try_block, on_429, on_5xx.
  assert ((status res =? 429) = false) as -> by lia.
  assert ((status res =? 500) = false) as -> by lia.
  assert ((status res =? 503) = false) as -> by lia.
  cbn [orb negb app]. rewrite Hok. cbn [negb].
  change (8 <? 1)%nat with false. cbn iota.
  by destruct (fetch_loop env url options 8 1 (next_backoff lit_300) script)
    as [[r rest] log].
Qed.

Lemma fetchWithRetry_retries_other_status_witness :
  fetchWithRetry None "u" ∅ 8 [Responded sample_404; Responded sample_ok] =
    (Returned (VObj ∅), [], [sample_request; EvSleep lit_300; sample_request]).
Proof.
  rewrite (fetchWithRetry_retries_other_status None "u" ∅ sample_404
             [Responded sample_ok]); [reflexivity|reflexivity|done|done|done].
Defined.

(** C2, as the code has it. Every call of [fetch] made by
    [fetchWithRetry] carries the same request, whose headers object has an
    [x-api-key] property; the headers of the caller are all carried over,
    and the property holds the API key unless the caller's headers have
    an [x-api-key] of their own, which then takes its place. What else
    the options hold is passed on unchanged. *)
Theorem fetchWithRetry_request_headers env url options maxRetries script :
  let caller := spread (if truthy (get options "headers")
                        then get options "headers" else VObj ∅) in
  let headers := request_headers env options in
  Forall (λ ev, if ev is EvFetch u init
                then u = url ∧ get init "headers" = VObj headers
                else True)
         (fetchWithRetry env url options maxRetries script).2
  ∧ is_Some (headers !! "x-api-key")
  ∧ (∀ k v, caller !! k = Some v → headers !! k = Some v)
  ∧ (caller !! "x-api-key" = None → headers !! "x-api-key" = Some (VStr (API_KEY env)))
  ∧ (∀ k, k ≠ "headers" → request_init env options !! k = options !! k).
Proof.
  intros caller headers.
  assert (get (request_init env options) "headers" = VObj headers) as Hget.
  { unfold get, request_init. by rewrite lookup_insert_eq. }
  split_and!.
  - destruct (fetchWithRetry env url options maxRetries script) as [[r rest] log] eqn:Hrun.
    unfold fetchWithRetry in Hrun.
    apply FetchFacts.fetch_loop_run in Hrun as (_ & _ & _ & _ & _ & Hall); [|lia].
    simpl. eapply Forall_impl; [exact Hall|].
    intros [u init|ms]; [|done]. by intros [= -> ->].
  - unfold headers, request_headers, assign. fold caller.
    destruct (caller !! "x-api-key") as [v|] eqn:Hc.
    + exists v. by apply lookup_union_Some_l.
    + exists (VStr (API_KEY env)).
      rewrite lookup_union_r by done. apply lookup_insert_eq.
  - intros k v Hk. unfold headers, request_headers, assign. fold caller.
    by apply lookup_union_Some_l.
  - intros Hc. unfold headers, request_headers, assign. fold caller.
    rewrite lookup_union_r by done. apply lookup_insert_eq.
  - intros k Hk. unfold request_init, assign.
    rewrite lookup_insert_ne by done. by rewrite (right_id_L ∅ (∪)).
Qed.

Lemma fetchWithRetry_request_headers_witness :
  request_headers None ∅ !! "x-api-key" = Some (VStr (API_KEY None))
  ∧ request_headers None caller_key_options !! "x-api-key" = Some (VStr "caller-key").
Proof.
  destruct (fetchWithRetry_request_headers None "u" ∅ 8 [])
    as (_ & _ & _ & Hdefault & _).
  destruct (fetchWithRetry_request_headers None "u" caller_key_options 8 [])
    as (_ & _ & Hcaller & _).
  split.
  - apply Hdefault. reflexivity.
  - apply Hcaller. reflexivity.
Defined.

(** C2, as claimed, fails: a caller whose headers hold an [x-api-key]
    replaces the credential on the outgoing request. *)
Lemma caller_replaces_credential_header :
  ∃ init,
    (fetchWithRetry None "u" caller_key_options 8 [Responded sample_ok]).2
      = [EvFetch "u" init]
    ∧ opt_get (get init "headers") "x-api-key" = VStr "caller-key"
    ∧ VStr "caller-key" ≠ VStr (API_KEY None).
Proof. eexists. split_and!; [reflexivity|reflexivity|done]. Qed.

(** C7. Run against any script of outcomes, [fetchWithRetry] calls
    [fetch] at most 9 times and uses at most the first 9 outcomes; given
    9 outcomes or more it ends, with a value or an exception; and when the
    first 8 attempts fail and the 9th meets an error, that error is the
    exception thrown, the rest of the script being left untouched. *)
Theorem fetchWithRetry_attempt_budget env url options script r rest log :
  fetchWithRetry env url options 8 script = (r, rest, log) →
  (fetches log ≤ 9)%nat
  ∧ (∃ used, script = used ++ rest ∧ (length used ≤ 9)%nat)
  ∧ ((9 ≤ length script)%nat → r ≠ Pending)
  ∧ (∀ pre o rest' e,
       script = pre ++ o :: rest' → length pre = 8%nat →
       Forall failed pre → outcome_result o = inl e →
       r = Threw e ∧ rest = rest').
Proof.
  intros Hrun. unfold fetchWithRetry in Hrun.
  destruct (FetchFacts.fetch_loop_run env url options 8 script 0 lit_300 r rest log)
    as (used & Hused & Hn & Hb & Hp & _); [lia|done|].
  split_and!.
  - lia.
  - exists used. split; [done|]. lia.
  - intros Hlen ->. specialize (Hp eq_refl). subst rest.
    rewrite app_nil_r in Hused. subst used. lia.
  - intros pre o rest' e -> Hlen Hfail Ho.
    destruct (FetchFacts.fetch_loop_last env url options 8 pre 0 lit_300 o rest')
      as [log' Hlast]; [lia|done|].
    rewrite Ho in Hlast. rewrite Hlast in Hrun. by injection Hrun as <- <- <-.
Qed.

Lemma fetchWithRetry_attempt_budget_witness :
  (fetchWithRetry None "u" ∅ 8 exhausting_script).1.1
    = Threw (Thrown "HTTP 404: not found")
  ∧ (fetchWithRetry None "u" ∅ 8 exhausting_script).1.2 = [Responded sample_ok]
  ∧ (fetches (fetchWithRetry None "u" ∅ 8 exhausting_script).2 ≤ 9)%nat.
Proof.
  destruct (fetchWithRetry_attempt_budget None "u" ∅ exhausting_script
              (fetchWithRetry None "u" ∅ 8 exhausting_script).1.1
              (fetchWithRetry None "u" ∅ 8 exhausting_script).1.2
              (fetchWithRetry None "u" ∅ 8 exhausting_script).2)
    as (Hcalls & _ & _ & Hlast).
  { by destruct (fetchWithRetry None "u" ∅ 8 exhausting_script) as [[r rest] log]. }
  destruct (Hlast (replicate 8 (Responded sample_404)) (Responded sample_404)
              [Responded sample_ok] (Thrown "HTTP 404: not found"))
    as [Hr Hrest].
  - reflexivity.
  - reflexivity.
  - repeat constructor; by eexists.
  - reflexivity.
  - by split_and!.
Defined.

(* ================================================================== *)
(** * Field parsers and scorer: the claims *)
(* ================================================================== *)

(** C3, as the code has it. [parseBloodPressure] is valid exactly for a
    non-empty string that splits on ['/'] into two parts which
    [parseNumberStrict] both accepts, and its fields then hold the two
    numbers. Every other input is invalid. An input that is not a string
    of exactly two parts gives the all-null result; a string of exactly
    two parts gives, for each part, what [parseNumberStrict] makes of it,
    so the number of a part that parses is kept beside a part that does
    not. *)
Theorem parseBloodPressure_spec (bp : JSValue) :
  (valid (parseBloodPressure bp) = true ↔
     ∃ s p0 p1 a b,
       bp = VStr s ∧ s ≠ "" ∧ Str.split "/" s = [p0; p1]
       ∧ parseNumberStrict (VStr p0) = Some a
       ∧ parseNumberStrict (VStr p1) = Some b)
  ∧ (∀ s p0 p1 a b,
       bp = VStr s → Str.split "/" s = [p0; p1] →
       parseNumberStrict (VStr p0) = Some a →
       parseNumberStrict (VStr p1) = Some b →
       parseBloodPressure bp =
         {| systolic := Some a; diastolic := Some b; valid := true |})
  ∧ (∀ s p0 p1,
       bp = VStr s → Str.split "/" s = [p0; p1] →
       systolic (parseBloodPressure bp) = parseNumberStrict (VStr p0)
       ∧ diastolic (parseBloodPressure bp) = parseNumberStrict (VStr p1))
  ∧ ((¬ ∃ s p0 p1, bp = VStr s ∧ Str.split "/" s = [p0; p1]) →
       parseBloodPressure bp = all_null).
Proof.
  assert (∀ s p0 p1, bp = VStr s → Str.split "/" s = [p0; p1] →
            parseBloodPressure bp =
              {| systolic := parseNumberStrict (VStr p0);
                 diastolic := parseNumberStrict (VStr p1);
                 valid := bool_decide (parseNumberStrict (VStr p0) ≠ None)
                          && bool_decide (parseNumberStrict (VStr p1) ≠ None) |})
    as Htwo.
  { intros s p0 p1 -> Hsplit. unfold parseBloodPressure.
    rewrite (StrFacts.split_two_nonempty s p0 p1 Hsplit). cbn [negb].
    by rewrite Hsplit. }
  split_and!.
  - split.
    + unfold parseBloodPressure.
      destruct (isNonEmptyString bp) eqn:Hne; cbn [negb]; [|done].
      destruct bp as [| | | |s| |]; try done.
      destruct (Str.split "/" s) as [|p0 [|p1 [|p2 parts]]] eqn:Hsplit; try done.
      cbn [valid]. intros [H0 H1]%andb_true_iff.
      apply bool_decide_eq_true in H0, H1.
      destruct (parseNumberStrict (VStr p0)) as [a|] eqn:Ha; [|done].
      destruct (parseNumberStrict (VStr p1)) as [b|] eqn:Hb; [|done].
      exists s, p0, p1, a, b. split_and!; try done.
      by eapply StrFacts.split_two_not_empty.
    + intros (s & p0 & p1 & a & b & Hbp & _ & Hsplit & Ha & Hb).
      rewrite (Htwo s p0 p1 Hbp Hsplit), Ha, Hb. done.
  - intros s p0 p1 a b Hbp Hsplit Ha Hb.
    rewrite (Htwo s p0 p1 Hbp Hsplit), Ha, Hb. done.
  - intros s p0 p1 Hbp Hsplit. by rewrite (Htwo s p0 p1 Hbp Hsplit).
  - intros Hnot. unfold parseBloodPressure.
    destruct (negb (isNonEmptyString bp)); [done|].
    destruct bp as [| | | |s| |]; try done.
    destruct (Str.split "/" s) as [|p0 [|p1 [|p2 parts]]] eqn:Hsplit; try done.
    destruct Hnot. by exists s, p0, p1.
Qed.

Lemma parseBloodPressure_spec_witness :
  parseBloodPressure (VStr "120/80") =
    {| systolic := Some lit_120; diastolic := Some lit_80; valid := true |}
  ∧ parseBloodPressure (VStr "120-80") = all_null.
Proof.
  destruct (parseBloodPressure_spec (VStr "120/80")) as (_ & Hvalues & _ & _).
  destruct (parseBloodPressure_spec (VStr "120-80")) as (_ & _ & _ & Hnull).
  split.
  - apply (Hvalues "120/80" "120" "80"); reflexivity.
  - apply Hnull. by intros (s & p0 & p1 & [= <-] & Hsplit).
Defined.

(** C3, as claimed, fails: ["120/abc"] is invalid, and yet the result is
    not all-null, its systolic field holding 120. *)
Lemma parseBloodPressure_keeps_parsed_part :
  valid (parseBloodPressure (VStr "120/abc")) = false
  ∧ systolic (parseBloodPressure (VStr "120/abc")) = Some lit_120
  ∧ parseBloodPressure (VStr "120/abc") ≠ all_null.
Proof. split_and!; [reflexivity|reflexivity|done]. Qed.

(** C5. [scoreBloodPressure] gives 1 for 115/75, 2 for 125/75, 3 for
    135/85 and 4 for 150/95; 0 for every input that does not parse; and
    for every pair that parses and is neither Normal (systolic < 120 and
    diastolic < 80) nor Elevated (120 <= systolic <= 129 and
    diastolic < 80), 4 when the larger of the two stages is 4 or more and
    3 otherwise, so 3 or 4. *)
Theorem scoreBloodPressure_spec (bp : JSValue) (s d : number) :
  scoreBloodPressure (VStr "115/75") = 1
  ∧ scoreBloodPressure (VStr "125/75") = 2
  ∧ scoreBloodPressure (VStr "135/85") = 3
  ∧ scoreBloodPressure (VStr "150/95") = 4
  ∧ (valid (parseBloodPressure bp) = false → scoreBloodPressure bp = 0)
  ∧ (parseBloodPressure bp =
       {| systolic := Some s; diastolic := Some d; valid := true |} →
     ¬ (Num.lt s lit_120 = true ∧ Num.lt d lit_80 = true) →
     ¬ (Num.ge s lit_120 = true ∧ Num.le s lit_129 = true
        ∧ Num.lt d lit_80 = true) →
     scoreBloodPressure bp =
       (if 4 <=? Z.max (sysStage s) (diaStage d) then 4 else 3)
     ∧ (scoreBloodPressure bp = 3 ∨ scoreBloodPressure bp = 4)).
Proof.
  split_and!; try reflexivity.
  - unfold scoreBloodPressure. by intros ->.
  - intros Hparse Hnormal Helevated.
    assert (scoreBloodPressure bp =
              (if 4 <=? Z.max (sysStage s) (diaStage d) then 4 else 3)) as Hscore.
    { unfold scoreBloodPressure. rewrite Hparse. cbn [valid negb systolic diastolic].
      change (operand (Some s)) with s. change (operand (Some d)) with d.
      destruct (Num.lt s lit_120 && Num.lt d lit_80) eqn:E1.
      { apply andb_true_iff in E1. done. }
      destruct (Num.ge s lit_120 && Num.le s lit_129 && Num.lt d lit_80) eqn:E2.
      { apply andb_true_iff in E2 as [[? ?]%andb_true_iff ?]. by destruct Helevated. }
      reflexivity. }
    split; [done|]. rewrite Hscore.
    destruct (4 <=? Z.max (sysStage s) (diaStage d)); auto.
Qed.

Lemma scoreBloodPressure_spec_witness :
  scoreBloodPressure (VStr "abc") = 0
  ∧ scoreBloodPressure (VStr "118/85") = 3
  ∧ scoreBloodPressure (VStr "118/95") = 4.
Proof.
  split_and!.
  - by apply (scoreBloodPressure_spec (VStr "abc") Num.zero Num.zero).
  - destruct (scoreBloodPressure_spec (VStr "118/85")
                (Str.to_number "118") (Str.to_number "85"))
      as (_ & _ & _ & _ & _ & Hhigh).
    destruct Hhigh as [Hscore _]; [reflexivity| | |].
    + by intros [_ H].
    + by intros (H & _ & _).
    + by rewrite Hscore.
  - destruct (scoreBloodPressure_spec (VStr "118/95")
                (Str.to_number "118") (Str.to_number "95"))
      as (_ & _ & _ & _ & _ & Hhigh).
    destruct Hhigh as [Hscore _]; [reflexivity| | |].
    + by intros [_ H].
    + by intros (H & _ & _).
    + by rewrite Hscore.
Defined.

(* ================================================================== *)
(** * Data-quality detector and aggregator: the claims *)
(* ================================================================== *)

(** C8. The flag of a record is raised exactly when its blood pressure
    is invalid, or its temperature or its age does not parse. The scores
    do not decide it: a record can score 0 in all three and be flagged,
    and of two records with the same three scores one can be flagged and
    the other not. *)
Theorem hasDataQualityIssue_spec (p : PatientRecord) :
  (hasDataQualityIssue p = true ↔
     valid (parseBloodPressure (get p "blood_pressure")) = false
     ∨ parseNumberStrict (get p "temperature") = None
     ∨ parseNumberStrict (get p "age") = None)
  ∧ (scores unreadable_record = (0, 0, 0)
     ∧ hasDataQualityIssue unreadable_record = true)
  ∧ (scores no_temperature_record = scores cool_record
     ∧ hasDataQualityIssue no_temperature_record = true
     ∧ hasDataQualityIssue cool_record = false).
Proof.
  split_and!; try reflexivity.
  unfold hasDataQualityIssue.
  destruct (valid (parseBloodPressure (get p "blood_pressure")));
    destruct (parseNumberStrict (get p "temperature"));
    destruct (parseNumberStrict (get p "age")); simpl; naive_solver.
Qed.

Lemma hasDataQualityIssue_spec_witness :
  hasDataQualityIssue no_temperature_record = true.
Proof.
  destruct (hasDataQualityIssue_spec no_temperature_record) as ([_ Hflag] & _ & _).
  apply Hflag. right. left. reflexivity.
Defined.

(** C10. A temperature that parses to a number above 100.9 and below
    101.0 scores 0, and a record with such a temperature and a usable
    identifier has its identifier among the fever patients all the same. *)
Theorem temperature_gap_scores_zero_with_fever (temp : JSValue) (t : number) :
  parseNumberStrict temp = Some t →
  Num.lt lit_100_9 t = true → Num.lt t lit_101_0 = true →
  scoreTemperature temp = 0
  ∧ ∀ (patients : list PatientRecord) (p : PatientRecord) (id : string),
      p ∈ patients → get p "temperature" = temp →
      get p "patient_id" = VStr id → isNonEmptyString (VStr id) = true →
      id ∈ fever_patients (analyzePatients patients).
Proof.
  intros Hparse Hlow Hhigh. split.
  - unfold scoreTemperature. rewrite Hparse.
    destruct (Num.le t lit_99_5); [done|].
    rewrite (NumFacts.lt_not_ge _ _ Hlow), andb_false_r.
    unfold Num.ge. fold (Num.le lit_101_0 t).
    by rewrite (NumFacts.lt_not_ge _ _ Hhigh).
  - intros patients p id Hin Htemp Hid Husable.
    apply AnalyzeFacts.elem_of_fever. exists p. split; [done|].
    unfold adds, analyze_record.
    rewrite Hid, Husable, Htemp, Hparse. cbn [negb fever no_lists].
    unfold Num.ge. fold (Num.le lit_99_6 t).
    rewrite (NumFacts.le_lt_trans lit_99_6 lit_100_9 t); [|done|done].
    unfold push_if. set_solver.
Qed.

Lemma temperature_gap_scores_zero_with_fever_witness :
  scoreTemperature (VStr "100.95") = 0
  ∧ "P4" ∈ fever_patients (analyzePatients [cool_record; gap_record]).
Proof.
  destruct (temperature_gap_scores_zero_with_fever
              (VStr "100.95") (Str.to_number "100.95"))
    as [Hscore Hfever]; [reflexivity|reflexivity|reflexivity|].
  split; [done|].
  apply (Hfever [cool_record; gap_record] gap_record "P4");
    [set_solver|reflexivity|reflexivity|reflexivity].
Defined.

(** C6. Each of the three output lists holds no identifier twice and is
    in ascending order of the code units, strictly so; and two lists of
    records with the same elements, in whatever order and however often
    repeated, give the same output. *)
Theorem analyzePatients_sorted_unique_stable (patients : list PatientRecord) :
  Forall (λ out, NoDup out
                 ∧ StronglySorted code_unit_le out
                 ∧ StronglySorted (λ a b, String.compare a b = Lt) out)
    [high_risk_patients (analyzePatients patients);
     fever_patients (analyzePatients patients);
     data_quality_issues (analyzePatients patients)]
  ∧ ∀ other : list PatientRecord,
      (∀ p, p ∈ other ↔ p ∈ patients) →
      analyzePatients other = analyzePatients patients.
Proof.
  assert (∀ arr, NoDup (uniqSort arr)
                 ∧ StronglySorted code_unit_le (uniqSort arr)
                 ∧ StronglySorted (λ a b, String.compare a b = Lt) (uniqSort arr))
    as Hout.
  { intros arr.
    pose proof (SortFacts.uniqSort_NoDup arr) as Hnd.
    pose proof (SortFacts.uniqSort_sorted arr) as Hs.
    split_and!; [done|done|].
    induction Hs as [|x out Hs IH Hx]; [constructor|].
    apply NoDup_cons in Hnd as [Hx' Hnd].
    constructor; [by apply IH|].
    apply Forall_forall. intros y Hy.
    rewrite Forall_forall in Hx. specialize (Hx y Hy). unfold code_unit_le in Hx.
    destruct (String.compare x y) eqn:E; [|done|done].
    apply String.compare_eq_iff in E as ->. done. }
  split.
  - unfold analyzePatients. cbn [high_risk_patients fever_patients data_quality_issues].
    repeat constructor; apply Hout.
  - intros other Hsame. by apply AnalyzeFacts.analyzePatients_ext.
Qed.

Lemma analyzePatients_sorted_unique_stable_witness :
  analyzePatients [gap_record; unreadable_record; gap_record; cool_record]
  = analyzePatients [cool_record; unreadable_record; gap_record].
Proof.
  apply (analyzePatients_sorted_unique_stable
           [cool_record; unreadable_record; gap_record]).
  intros p. rewrite !elem_of_cons. naive_solver.
Defined.

(** C9. A record whose [patient_id] is not a non-empty string is skipped
    by the loop: it changes none of the three arrays, the output is the
    one obtained without it, and its identifier, when it is a string, is
    in none of the three output lists, whatever the records. *)
Theorem analyzePatients_skips_unusable_identifier (p : PatientRecord) :
  isNonEmptyString (get p "patient_id") = false →
  (∀ acc, analyze_record acc p = acc)
  ∧ (∀ before after,
       analyzePatients (before ++ p :: after) = analyzePatients (before ++ after))
  ∧ (∀ (patients : list PatientRecord) (id : string),
       get p "patient_id" = VStr id →
       (id ∉ high_risk_patients (analyzePatients patients))
       ∧ (id ∉ fever_patients (analyzePatients patients))
       ∧ (id ∉ data_quality_issues (analyzePatients patients))).
Proof.
  intros Hid.
  assert (∀ acc, analyze_record acc p = acc) as Hskip.
  { intros acc. unfold analyze_record. by rewrite Hid. }
  split_and!; [done| |].
  - intros before after. unfold analyzePatients.
    rewrite !fold_left_app. cbn [fold_left]. by rewrite Hskip.
  - intros patients id Hp. rewrite Hp in Hid.
    assert (∀ q, id ∈ highRisk (adds q) ∨ id ∈ fever (adds q)
                 ∨ id ∈ dq (adds q) → False) as Hnone.
    { intros q Hq. apply AnalyzeFacts.adds_usable in Hq as [_ Hq]. congruence. }
    rewrite AnalyzeFacts.elem_of_high_risk, AnalyzeFacts.elem_of_fever,
      AnalyzeFacts.elem_of_dq.
    split_and!; intros (q & _ & Hq); apply (Hnone q); auto.
Qed.

Lemma analyzePatients_skips_unusable_identifier_witness :
  analyzePatients [cool_record; blank_id_record; gap_record]
    = analyzePatients [cool_record; gap_record]
  ∧ "  " ∉ data_quality_issues
             (analyzePatients [cool_record; blank_id_record; gap_record]).
Proof.
  destruct (analyzePatients_skips_unusable_identifier blank_id_record)
    as (_ & Hout & Hid); [reflexivity|].
  split.
  - apply (Hout [cool_record] [gap_record]).
  - apply (Hid _ "  "). reflexivity.
Defined.

(* ================================================================== *)
(** * Paginator: the claims *)
(* ================================================================== *)

(** C4, as the code has it. The decision is the boolean [hasNext] flag of
    the pagination metadata if there is one; else, if the total page
    count tracked so far (the last one of type number, this page's
    included) is a number other than zero and [NaN], whether
    [page < totalPages]; else, also when the tracked count is zero,
    whether the page holds 20 records. It is the decision of the claim
    whenever the tracked count is not zero or [NaN]. The loop stops with
    the records gathered when the decision is false, and goes on with the
    next page and the tracked count when it is true. *)
Theorem hasNext_priority_order (env : option string) (page fuel : nat)
    (totalPages : option number) (all : list JSValue)
    (payload : JSValue) (script rest : list Outcome) (log : list Event) :
  hasNext page (track_totalPages totalPages (page_pagination payload))
          (page_pagination payload) (page_data payload)
    = match opt_get (page_pagination payload) "hasNext" with
      | VBool b => b
      | _ =>
          match track_totalPages totalPages (page_pagination payload) with
          | Some n =>
              if Num.truthy n then Num.lt (Num.of_Z (Z.of_nat page)) n
              else (length (page_data payload) =? 20)%nat
          | None => (length (page_data payload) =? 20)%nat
          end
      end
  ∧ track_totalPages totalPages (page_pagination payload)
    = match opt_get (page_pagination payload) "totalPages" with
      | VNum n => Some n
      | _ => totalPages
      end
  ∧ ((∀ n, track_totalPages totalPages (page_pagination payload) = Some n →
           Num.truthy n = true) →
     hasNext page (track_totalPages totalPages (page_pagination payload))
             (page_pagination payload) (page_data payload)
       = claimed_hasNext page (track_totalPages totalPages (page_pagination payload))
                         (page_pagination payload) (page_data payload))
  ∧ (fetchWithRetry env (page_url page) ∅ 8 script = (Returned payload, rest, log) →
     pages_loop env (S fuel) page totalPages all script
       = if hasNext page (track_totalPages totalPages (page_pagination payload))
                    (page_pagination payload) (page_data payload)
         then (let '(r, rest', log') :=
                 pages_loop env fuel (S page)
                   (track_totalPages totalPages (page_pagination payload))
                   (all ++ page_data payload) rest in
               (r, rest', log ++ EvSleep lit_120 :: log'))
         else (Returned (all ++ page_data payload), rest, log)).
Proof.
  split_and!.
  - unfold hasNext.
    destruct (opt_get (page_pagination payload) "hasNext"); try done;
      destruct (track_totalPages totalPages (page_pagination payload)) as [tp|];
      try done; by destruct (Num.truthy tp).
  - done.
  - intros Htruthy. unfold hasNext, claimed_hasNext.
    destruct (opt_get (page_pagination payload) "hasNext"); try done;
      destruct (track_totalPages totalPages (page_pagination payload)) as [tp|];
      try done; by rewrite (Htruthy tp eq_refl).
  - intros Hfetch. cbn [pages_loop]. rewrite Hfetch.
    by destruct (hasNext _ _ _ _).
Qed.

Lemma hasNext_priority_order_witness :
  (getAllPatients None [page_response full_page (VObj {[ "hasNext" := VBool false ]});
                        page_response [] (VObj ∅)]).1.1
    = Returned full_page
  ∧ hasNext 1 None (VObj {[ "hasNext" := VBool false ]}) full_page = false.
Proof.
  destruct (hasNext_priority_order None 1 2 None []
              (VObj {[ "data" := VArr full_page;
                       "pagination" := VObj {[ "hasNext" := VBool false ]} ]})
              [page_response full_page (VObj {[ "hasNext" := VBool false ]});
               page_response [] (VObj ∅)]
              [page_response [] (VObj ∅)]
              [EvFetch (page_url 1) (request_init None ∅)])
    as (Hdecision & _ & _ & Hloop).
  split.
  - unfold getAllPatients. cbn [length].
    rewrite Hloop by reflexivity. reflexivity.
  - reflexivity.
Defined.

(** C4, as claimed, fails: with a total page count of zero and a full
    page the code goes on, by the size of the page, where the claim has
    it stop; run on such a first page, [getAllPatients] fetches a second
    one. *)
Lemma zero_totalPages_is_not_used :
  hasNext 1 (track_totalPages None zero_pages) zero_pages full_page = true
  ∧ claimed_hasNext 1 (track_totalPages None zero_pages) zero_pages full_page = false
  ∧ fetches
      (getAllPatients None [page_response full_page zero_pages;
                            page_response [] (VObj ∅)]).2 = 2%nat.
Proof. split_and!; reflexivity. Qed.

(* ================================================================== *)
(** * Further facts on numbers and strings *)
(* ================================================================== *)

Module OrderFacts.

Lemma le_trans (a b c : number) :
  Num.le a b = true → Num.le b c = true → Num.le a c = true.
Proof.
  unfold Num.le, SFleb, SFcompare.
  NumFacts.by_cases a; NumFacts.by_cases b; NumFacts.by_cases c;
    intros H1 H2; NumFacts.cases_compare.
Qed.

Lemma le_not_lt (a b : number) : Num.le a b = true → Num.lt b a = false.
Proof.
  unfold Num.lt, Num.le, SFltb, SFleb, SFcompare.
  NumFacts.by_cases a; NumFacts.by_cases b; intros H; NumFacts.cases_compare.
Qed.

(** Above a bound is not below, or at, a smaller one. *)
Lemma ge_not_lt (lo hi x : number) :
  Num.le lo hi = true → Num.ge x hi = true → Num.lt x lo = false.
Proof.
  unfold Num.ge. intros Hlh Hx. apply le_not_lt. by apply (le_trans lo hi x).
Qed.

Lemma ge_not_le (lo hi x : number) :
  Num.lt lo hi = true → Num.ge x hi = true → Num.le x lo = false.
Proof.
  unfold Num.ge. intros Hlh Hx.
  destruct (Num.le x lo) eqn:E; [|done].
  pose proof (le_trans hi x lo Hx E) as Hle.
  by rewrite (NumFacts.lt_not_ge lo hi Hlh) in Hle.
Qed.

End OrderFacts.

Module TrimFacts.

Lemma append_cons c (a b : string) : String c a +:+ b = String c (a +:+ b).
Proof. done. Qed.

Lemma append_nil (b : string) : "" +:+ b = b.
Proof. done. Qed.

Lemma trim_start_all_ws s : all_ws s = true → Str.trim_start s = "".
Proof.
  induction s as [|c s IH]; simpl; [done|].
  intros [Hc Hs]%andb_true_iff. rewrite Hc. auto.
Qed.

Lemma trim_end_all_ws s : all_ws s = true → Str.trim_end s = "".
Proof.
  induction s as [|c s IH]; simpl; [done|].
  intros [Hc Hs]%andb_true_iff. by rewrite (IH Hs), Hc.
Qed.

(** White space in front is dropped. *)
Lemma trim_start_padding l s :
  all_ws l = true → Str.trim_start (l +:+ s) = Str.trim_start s.
Proof.
  induction l as [|c l IH]; rewrite ?append_cons, ?append_nil; simpl; [done|].
  intros [Hc Hl]%andb_true_iff. rewrite Hc. auto.
Qed.

(** White space at the end is dropped. *)
Lemma trim_end_padding s r :
  all_ws r = true → Str.trim_end (s +:+ r) = Str.trim_end s.
Proof.
  intros Hr. induction s as [|c s IH]; rewrite ?append_cons, ?append_nil; simpl.
  - by apply trim_end_all_ws.
  - by rewrite IH.
Qed.

(** What [trim_start] leaves of a string with white space after it. *)
Lemma trim_start_append s r :
  all_ws r = true →
  ∃ r', all_ws r' = true ∧ Str.trim_start (s +:+ r) = Str.trim_start s +:+ r'.
Proof.
  intros Hr. induction s as [|c s IH]; rewrite ?append_cons, ?append_nil; simpl.
  - exists "". split; [done|]. by apply trim_start_all_ws.
  - destruct (Str.is_ws c); [done|]. by exists r.
Qed.

Lemma trim_padding l s r :
  all_ws l = true → all_ws r = true → Str.trim (l +:+ s +:+ r) = Str.trim s.
Proof.
  intros Hl Hr. unfold Str.trim. rewrite trim_start_padding by done.
  destruct (trim_start_append s r Hr) as (r' & Hr' & ->).
  by apply trim_end_padding.
Qed.

(** A string free of the separator is one part, and two such strings
    joined by the separator are two. *)
Lemma split_free sep s : free_of sep s = true → Str.split sep s = [s].
Proof.
  induction s as [|c s IH]; simpl; [done|].
  intros [Hc Hs]%andb_true_iff. apply negb_true_iff in Hc. by rewrite Hc, IH.
Qed.

Lemma split_join sep a b :
  free_of sep a = true → free_of sep b = true →
  Str.split sep (a +:+ String sep b) = [a; b].
Proof.
  intros Ha Hb. induction a as [|c a IH]; rewrite ?append_cons, ?append_nil; simpl.
  - by rewrite Ascii.eqb_refl, split_free.
  - simpl in Ha. apply andb_true_iff in Ha as [Hc Ha].
    apply negb_true_iff in Hc. by rewrite Hc, IH.
Qed.

End TrimFacts.

(* ================================================================== *)
(** * Field parsers and scorer: further properties *)
(* ================================================================== *)

(** X1. A number that [parseNumberStrict] returns is finite, never [NaN]
    or an infinity, and it is the number given, or what [Number] makes of
    the trimmed string given, which is not blank. *)
Theorem parseNumberStrict_finite (x : JSValue) (n : number) :
  parseNumberStrict x = Some n →
  Num.isFinite n = true
  ∧ (x = VNum n
     ∨ ∃ s, x = VStr s ∧ Str.trim s ≠ "" ∧ n = Str.to_number (Str.trim s)).
Proof.
  destruct x as [| |b|m|s|l|o]; simpl; try done.
  - destruct (Num.isFinite m) eqn:E; [|done]. intros [= <-]. auto.
  - destruct (Str.trim s) as [|c t] eqn:Ht; [done|].
    cbn [String.length Nat.ltb Nat.leb negb].
    destruct (Num.isFinite (Str.to_number (String c t))) eqn:E; [|done].
    intros [= <-]. split; [done|]. right. exists s. by rewrite Ht.
Qed.

Lemma parseNumberStrict_finite_witness :
  Num.isFinite lit_120 = true
  ∧ parseNumberStrict (VStr "1e999") = None
  ∧ parseNumberStrict (VNum Num.nan) = None.
Proof.
  split_and!; [|reflexivity|reflexivity].
  by apply (parseNumberStrict_finite (VStr " 120 ") lit_120).
Defined.

(** X2. White space around a string changes nothing of what
    [parseNumberStrict] makes of it; a blank string gives [null]. *)
Theorem parseNumberStrict_ignores_padding (l s r : string) :
  all_ws l = true → all_ws r = true →
  parseNumberStrict (VStr (l +:+ s +:+ r)) = parseNumberStrict (VStr s)
  ∧ parseNumberStrict (VStr (l +:+ r)) = None.
Proof.
  intros Hl Hr.
  assert (∀ u, parseNumberStrict (VStr (l +:+ u +:+ r)) = parseNumberStrict (VStr u))
    as Hpad.
  { intros u. unfold parseNumberStrict, isNonEmptyString.
    by rewrite (TrimFacts.trim_padding l u r Hl Hr). }
  split; [apply Hpad|].
  pose proof (Hpad "") as Hblank.
  change (l +:+ "" +:+ r) with (l +:+ r) in Hblank. by rewrite Hblank.
Qed.

Lemma parseNumberStrict_ignores_padding_witness :
  parseNumberStrict (VStr "  98.6 ") = parseNumberStrict (VStr "98.6")
  ∧ parseNumberStrict (VStr "   ") = None.
Proof.
  destruct (parseNumberStrict_ignores_padding "  " "98.6" " ") as [Hpad Hblank];
    [reflexivity|reflexivity|].
  by split.
Defined.

(** X3. For two strings free of ['/'], the blood pressure written as the
    first, a slash and the second parses field by field: the systolic is
    what [parseNumberStrict] makes of the first, the diastolic what it
    makes of the second, and the result is valid when both are numbers. *)
Theorem parseBloodPressure_join (a b : string) :
  free_of "/" a = true → free_of "/" b = true →
  parseBloodPressure (VStr (a +:+ "/" +:+ b)) =
    {| systolic := parseNumberStrict (VStr a);
       diastolic := parseNumberStrict (VStr b);
       valid := bool_decide (parseNumberStrict (VStr a) ≠ None)
                && bool_decide (parseNumberStrict (VStr b) ≠ None) |}.
Proof.
  intros Ha Hb.
  pose proof (TrimFacts.split_join "/" a b Ha Hb) as Hsplit.
  unfold parseBloodPressure.
  change (a +:+ "/" +:+ b) with (a +:+ String "/" b).
  rewrite (StrFacts.split_two_nonempty _ a b Hsplit). cbn [negb].
  by rewrite Hsplit.
Qed.

Lemma parseBloodPressure_join_witness :
  parseBloodPressure (VStr " 120 / 80 ") =
    {| systolic := Some lit_120; diastolic := Some lit_80; valid := true |}.
Proof.
  change " 120 / 80 " with (" 120 " +:+ "/" +:+ " 80 ").
  rewrite (parseBloodPressure_join " 120 " " 80 "); reflexivity.
Defined.

Module ScoreFacts.

Lemma sysStage_range s : 0 ≤ sysStage s ≤ 4.
Proof. unfold sysStage. repeat case_match; lia. Qed.

Lemma diaStage_range d : 0 ≤ diaStage d ≤ 4.
Proof. unfold diaStage. repeat case_match; lia. Qed.

Lemma sysStage_4 s : sysStage s = 4 ↔ Num.ge s lit_140 = true.
Proof.
  unfold sysStage. split.
  - repeat case_match; try done; lia.
  - intros H.
    rewrite (OrderFacts.ge_not_lt lit_120 lit_140 s) by done.
    rewrite (OrderFacts.ge_not_le lit_129 lit_140 s) by done.
    rewrite (OrderFacts.ge_not_le lit_139 lit_140 s) by done.
    by rewrite !andb_false_r, H.
Qed.

Lemma diaStage_4 d : diaStage d = 4 ↔ Num.ge d lit_90 = true.
Proof.
  unfold diaStage. split.
  - repeat case_match; try done; lia.
  - intros H.
    rewrite (OrderFacts.ge_not_lt lit_80 lit_90 d) by done.
    rewrite (OrderFacts.ge_not_le lit_89 lit_90 d) by done.
    by rewrite !andb_false_r, H.
Qed.

(** The score of a pair that parsed. *)
Lemma scoreBloodPressure_parsed bp s d :
  parseBloodPressure bp = {| systolic := Some s; diastolic := Some d; valid := true |} →
  scoreBloodPressure bp =
    if Num.lt s lit_120 && Num.lt d lit_80 then 1
    else if Num.ge s lit_120 && Num.le s lit_129 && Num.lt d lit_80 then 2
    else if 4 <=? Z.max (sysStage s) (diaStage d) then 4 else 3.
Proof. intros Hparse. unfold scoreBloodPressure. by rewrite Hparse. Qed.

Lemma scoreTemperature_range temp : 0 ≤ scoreTemperature temp ≤ 2.
Proof. unfold scoreTemperature. repeat case_match; lia. Qed.

Lemma scoreAge_range age : 0 ≤ scoreAge age ≤ 2.
Proof. unfold scoreAge. repeat case_match; lia. Qed.

Lemma scoreBloodPressure_range bp : 0 ≤ scoreBloodPressure bp ≤ 4.
Proof. unfold scoreBloodPressure. repeat case_match; lia. Qed.

End ScoreFacts.

(** X4. [scoreBloodPressure] is 0 exactly for a blood pressure that does
    not parse, and from 1 to 4 for one that does. *)
Theorem scoreBloodPressure_zero_iff_invalid (bp : JSValue) :
  (scoreBloodPressure bp = 0 ↔ valid (parseBloodPressure bp) = false)
  ∧ (valid (parseBloodPressure bp) = true → 1 ≤ scoreBloodPressure bp ≤ 4).
Proof.
  assert (valid (parseBloodPressure bp) = true → 1 ≤ scoreBloodPressure bp ≤ 4)
    as Hvalid.
  { unfold scoreBloodPressure. intros ->. cbn [negb]. repeat case_match; lia. }
  split; [|done]. split.
  - destruct (valid (parseBloodPressure bp)); [|done]. intros H0.
    specialize (Hvalid eq_refl). lia.
  - unfold scoreBloodPressure. by intros ->.
Qed.

Lemma scoreBloodPressure_zero_iff_invalid_witness :
  scoreBloodPressure (VStr "120/80/1") = 0 ∧ 1 ≤ scoreBloodPressure (VStr "-5/-5") ≤ 4.
Proof.
  split.
  - by apply (scoreBloodPressure_zero_iff_invalid (VStr "120/80/1")).
  - by apply (scoreBloodPressure_zero_iff_invalid (VStr "-5/-5")).
Defined.

(** X5. For a pair that parses, the score is 4 exactly when the systolic
    is 140 or more or the diastolic 90 or more, 1 exactly when the
    systolic is below 120 and the diastolic below 80, and 2 exactly when
    the systolic is from 120 to 129 and the diastolic below 80. *)
Theorem scoreBloodPressure_categories (bp : JSValue) (s d : number) :
  parseBloodPressure bp = {| systolic := Some s; diastolic := Some d; valid := true |} →
  (scoreBloodPressure bp = 4 ↔ Num.ge s lit_140 = true ∨ Num.ge d lit_90 = true)
  ∧ (scoreBloodPressure bp = 1 ↔ Num.lt s lit_120 = true ∧ Num.lt d lit_80 = true)
  ∧ (scoreBloodPressure bp = 2 ↔
       Num.ge s lit_120 = true ∧ Num.le s lit_129 = true ∧ Num.lt d lit_80 = true).
Proof.
  intros Hparse. rewrite (ScoreFacts.scoreBloodPressure_parsed bp s d Hparse).
  pose proof (ScoreFacts.sysStage_range s) as Hs.
  pose proof (ScoreFacts.diaStage_range d) as Hd.
  pose proof (ScoreFacts.sysStage_4 s) as Hs4.
  pose proof (ScoreFacts.diaStage_4 d) as Hd4.
  destruct (Num.lt s lit_120) eqn:Es; destruct (Num.lt d lit_80) eqn:Ed;
    cbn [andb].
  - (* normal *)
    assert (Num.ge s lit_140 = false) as E140.
    { destruct (Num.ge s lit_140) eqn:E; [|done].
      by rewrite (OrderFacts.ge_not_lt lit_120 lit_140 s) in Es. }
    assert (Num.ge d lit_90 = false) as E90.
    { destruct (Num.ge d lit_90) eqn:E; [|done].
      by rewrite (OrderFacts.ge_not_lt lit_80 lit_90 d) in Ed. }
    assert (Num.ge s lit_120 = false) as E120.
    { unfold Num.ge. fold (Num.le lit_120 s). by apply NumFacts.lt_not_ge. }
    rewrite E140, E90, E120. naive_solver.
  - rewrite andb_false_r.
    destruct (4 <=? Z.max (sysStage s) (diaStage d)) eqn:E4.
    + apply Z.leb_le in E4. split_and!; [|naive_solver|naive_solver].
      split; [intros _|done].
      destruct (Z.max_spec (sysStage s) (diaStage d)) as [[_ Hm]|[_ Hm]];
        [right; apply Hd4|left; apply Hs4]; lia.
    + apply Z.leb_gt in E4. split_and!; [|naive_solver|naive_solver].
      split; [done|]. intros [H|H]; [apply Hs4 in H|apply Hd4 in H]; lia.
  - destruct (Num.ge s lit_120 && Num.le s lit_129) eqn:Ee; cbn [andb].
    + apply andb_true_iff in Ee as [E120 E129].
      assert (Num.ge s lit_140 = false) as E140.
      { destruct (Num.ge s lit_140) eqn:E; [|done].
        by rewrite (OrderFacts.ge_not_le lit_129 lit_140 s) in E129. }
      assert (Num.ge d lit_90 = false) as E90.
      { destruct (Num.ge d lit_90) eqn:E; [|done].
        by rewrite (OrderFacts.ge_not_lt lit_80 lit_90 d) in Ed. }
      rewrite E140, E90. naive_solver.
    + destruct (4 <=? Z.max (sysStage s) (diaStage d)) eqn:E4.
      * apply Z.leb_le in E4. split_and!.
        -- split; [intros _|done].
           destruct (Z.max_spec (sysStage s) (diaStage d)) as [[_ Hm]|[_ Hm]];
             [right; apply Hd4|left; apply Hs4]; lia.
        -- naive_solver.
        -- split; [done|]. intros (H1 & H2 & _). by rewrite H1, H2 in Ee.
      * apply Z.leb_gt in E4. split_and!.
        -- split; [done|]. intros [H|H]; [apply Hs4 in H|apply Hd4 in H]; lia.
        -- naive_solver.
        -- split; [done|]. intros (H1 & H2 & _). by rewrite H1, H2 in Ee.
  - rewrite andb_false_r.
    destruct (4 <=? Z.max (sysStage s) (diaStage d)) eqn:E4.
    + apply Z.leb_le in E4. split_and!; [|naive_solver|naive_solver].
      split; [intros _|done].
      destruct (Z.max_spec (sysStage s) (diaStage d)) as [[_ Hm]|[_ Hm]];
        [right; apply Hd4|left; apply Hs4]; lia.
    + apply Z.leb_gt in E4. split_and!; [|naive_solver|naive_solver].
      split; [done|]. intros [H|H]; [apply Hs4 in H|apply Hd4 in H]; lia.
Qed.

Lemma scoreBloodPressure_categories_witness :
  scoreBloodPressure (VStr "110/95") = 4 ∧ scoreBloodPressure (VStr "129.5/75") ≠ 2.
Proof.
  destruct (scoreBloodPressure_categories (VStr "110/95")
              (Str.to_number "110") (Str.to_number "95")) as (H4 & _ & _);
    [reflexivity|].
  destruct (scoreBloodPressure_categories (VStr "129.5/75")
              (Str.to_number "129.5") (Str.to_number "75")) as (_ & _ & H2);
    [reflexivity|].
  split.
  - apply H4. by right.
  - intros H. apply H2 in H as (_ & H & _). done.
Defined.

(** X6. The temperature score and the age score are from 0 to 2, the age
    score being 0 exactly for an age that does not parse, and the total
    of a record is from 0 to 8. *)
Theorem score_ranges (p : PatientRecord) (x : JSValue) :
  0 ≤ scoreTemperature x ≤ 2
  ∧ 0 ≤ scoreAge x ≤ 2
  ∧ (scoreAge x = 0 ↔ parseNumberStrict x = None)
  ∧ 0 ≤ total p ≤ 8.
Proof.
  split_and!; try apply ScoreFacts.scoreTemperature_range;
    try apply ScoreFacts.scoreAge_range.
  - unfold scoreAge. destruct (parseNumberStrict x); [|done].
    case_match; split; done.
  - unfold total.
    pose proof (ScoreFacts.scoreBloodPressure_range (get p "blood_pressure")).
    pose proof (ScoreFacts.scoreTemperature_range (get p "temperature")).
    pose proof (ScoreFacts.scoreAge_range (get p "age")). lia.
  - unfold total.
    pose proof (ScoreFacts.scoreBloodPressure_range (get p "blood_pressure")).
    pose proof (ScoreFacts.scoreTemperature_range (get p "temperature")).
    pose proof (ScoreFacts.scoreAge_range (get p "age")). lia.
Qed.

(* ================================================================== *)
(** * Aggregator: further properties *)
(* ================================================================== *)

Module ListsFacts.

Lemma elem_of_push_if c x (y : string) : y ∈ push_if c x [] ↔ c = true ∧ y = x.
Proof. unfold push_if. destruct c; set_solver. Qed.

(** What a record adds, list by list. *)
Lemma adds_spec p x :
  (x ∈ highRisk (adds p) ↔
     get p "patient_id" = VStr x ∧ isNonEmptyString (VStr x) = true ∧ 4 ≤ total p)
  ∧ (x ∈ fever (adds p) ↔
     get p "patient_id" = VStr x ∧ isNonEmptyString (VStr x) = true ∧ has_fever p)
  ∧ (x ∈ dq (adds p) ↔
     get p "patient_id" = VStr x ∧ isNonEmptyString (VStr x) = true
     ∧ hasDataQualityIssue p = true).
Proof.
  unfold adds, analyze_record, has_fever, total.
  destruct (get p "patient_id") as [| | | |id| |] eqn:Hid;
    try (cbn [isNonEmptyString negb highRisk fever dq no_lists]; set_solver).
  destruct (isNonEmptyString (VStr id)) eqn:Hne;
    cbn [negb highRisk fever dq no_lists]; last first.
  { split_and!; (split; [set_solver|]); intros ([= <-] & ? & _); congruence. }
  rewrite !elem_of_push_if. split_and!.
  - rewrite Z.leb_le. split; [intros [? ->]; done|]. by intros ([= ->] & _ & ?).
  - split.
    + intros [Ht ->]. split_and!; try done.
      destruct (parseNumberStrict (get p "temperature")) as [t|]; [|done]. by exists t.
    + intros ([= ->] & _ & t & -> & Ht). done.
  - split; [intros [? ->]; done|]. by intros ([= ->] & _ & ?).
Qed.

Lemma uniqSort_length arr : (length (uniqSort arr) ≤ length arr)%nat.
Proof.
  apply submseteq_length, NoDup_submseteq; [apply SortFacts.uniqSort_NoDup|].
  intros x. by rewrite SortFacts.uniqSort_elem_of.
Qed.

End ListsFacts.

(** X7. What is in the three output lists: an identifier is a high-risk
    patient exactly when some record has it as its non-blank
    [patient_id] and a total score of 4 or more, a fever patient exactly
    when some such record has a temperature that parses to 99.6 or more,
    and a data-quality issue exactly when some such record is flagged. *)
Theorem output_lists_membership (patients : list PatientRecord) (id : string) :
  (id ∈ high_risk_patients (analyzePatients patients) ↔
     ∃ p, p ∈ patients ∧ get p "patient_id" = VStr id
          ∧ isNonEmptyString (VStr id) = true ∧ 4 ≤ total p)
  ∧ (id ∈ fever_patients (analyzePatients patients) ↔
     ∃ p, p ∈ patients ∧ get p "patient_id" = VStr id
          ∧ isNonEmptyString (VStr id) = true ∧ has_fever p)
  ∧ (id ∈ data_quality_issues (analyzePatients patients) ↔
     ∃ p, p ∈ patients ∧ get p "patient_id" = VStr id
          ∧ isNonEmptyString (VStr id) = true ∧ hasDataQualityIssue p = true).
Proof.
  rewrite AnalyzeFacts.elem_of_high_risk, AnalyzeFacts.elem_of_fever,
    AnalyzeFacts.elem_of_dq.
  split_and!; split; intros (p & Hin & H); exists p; (split; [done|]);
    by apply (ListsFacts.adds_spec p id).
Qed.

(** X8. A record with a usable identifier and a temperature score of 1
    or 2 is among the fever patients. *)
Theorem positive_temperature_score_is_fever (patients : list PatientRecord)
    (p : PatientRecord) (id : string) :
  p ∈ patients → get p "patient_id" = VStr id → isNonEmptyString (VStr id) = true →
  1 ≤ scoreTemperature (get p "temperature") →
  id ∈ fever_patients (analyzePatients patients).
Proof.
  intros Hin Hid Hne Hscore.
  apply AnalyzeFacts.elem_of_fever. exists p. split; [done|].
  apply (ListsFacts.adds_spec p id). split_and!; [done|done|].
  unfold has_fever. unfold scoreTemperature in Hscore.
  destruct (parseNumberStrict (get p "temperature")) as [t|]; [|lia].
  exists t. split; [done|].
  destruct (Num.le t lit_99_5); [lia|].
  destruct (Num.ge t lit_99_6 && Num.le t lit_100_9) eqn:E1.
  { by apply andb_true_iff in E1 as [? _]. }
  destruct (Num.ge t lit_101_0) eqn:E2; [|lia].
  unfold Num.ge in *. by apply (OrderFacts.le_trans lit_99_6 lit_101_0 t).
Qed.

Lemma positive_temperature_score_is_fever_witness :
  "P5" ∈ fever_patients
           (analyzePatients [cool_record;
                             {[ "patient_id" := VStr "P5"; "temperature" := VStr "102" ]}]).
Proof.
  apply (positive_temperature_score_is_fever _
           {[ "patient_id" := VStr "P5"; "temperature" := VStr "102" ]});
    [set_solver|reflexivity|reflexivity|by vm_compute].
Defined.

(** X9. No record gives three empty lists, and the output for two lists
    of records put together is the output lists of the two merged: for
    each of the three lists, [uniqSort] of the one followed by the other. *)
Theorem analyzePatients_app (l1 l2 : list PatientRecord) :
  analyzePatients [] =
    {| high_risk_patients := []; fever_patients := []; data_quality_issues := [] |}
  ∧ analyzePatients (l1 ++ l2) =
    {| high_risk_patients :=
         uniqSort (high_risk_patients (analyzePatients l1)
                   ++ high_risk_patients (analyzePatients l2));
       fever_patients :=
         uniqSort (fever_patients (analyzePatients l1)
                   ++ fever_patients (analyzePatients l2));
       data_quality_issues :=
         uniqSort (data_quality_issues (analyzePatients l1)
                   ++ data_quality_issues (analyzePatients l2)) |}.
Proof.
  split; [reflexivity|].
  unfold analyzePatients at 1. rewrite AnalyzeFacts.fold_analyze_record.
  cbn [highRisk fever dq app].
  f_equal; apply SortFacts.uniqSort_ext; intros y;
    rewrite elem_of_app;
    [rewrite !AnalyzeFacts.elem_of_high_risk
    |rewrite !AnalyzeFacts.elem_of_fever
    |rewrite !AnalyzeFacts.elem_of_dq];
    rewrite AnalyzeFacts.elem_of_concat_map;
    setoid_rewrite elem_of_app; naive_solver.
Qed.

(** X10. [uniqSort] keeps exactly the elements of the array, returns no
    more of them than it was given, and changes nothing of what it has
    returned. *)
Theorem uniqSort_idempotent (arr : list string) (x : string) :
  (x ∈ uniqSort arr ↔ x ∈ arr)
  ∧ (length (uniqSort arr) ≤ length arr)%nat
  ∧ uniqSort (uniqSort arr) = uniqSort arr.
Proof.
  split_and!.
  - apply SortFacts.uniqSort_elem_of.
  - apply ListsFacts.uniqSort_length.
  - apply SortFacts.uniqSort_ext. intros y. apply SortFacts.uniqSort_elem_of.
Qed.

(* ================================================================== *)
(** * Resilient fetcher: further properties *)
(* ================================================================== *)

Module RetryFacts.

Lemma sleeps_app l1 l2 : sleeps (l1 ++ l2) = sleeps l1 ++ sleeps l2.
Proof. induction l1 as [|[] l1 IH]; simpl; by rewrite ?IH. Qed.

Lemma requests_app l1 l2 : requests (l1 ++ l2) = requests l1 ++ requests l2.
Proof. induction l1 as [|[] l1 IH]; simpl; by rewrite ?IH. Qed.

(** A successful outcome is none of the retried statuses. *)
Lemma success_not_retried res v :
  outcome_result (Responded res) = inr v →
  (status res =? 429) || (status res =? 500) || (status res =? 503) = false.
Proof.
  unfold outcome_result, ok.
  destruct ((200 <=? status res) && (status res <=? 299)) eqn:E; [|done].
  intros _. lia.
Qed.

(** The backoff steps through the schedule. *)
Lemma schedule_step (a : nat) :
  (a ≤ 8)%nat →
  next_backoff (nth a backoff_schedule Num.nan) = nth (S a) backoff_schedule Num.nan
  ∧ Num.max (nth a backoff_schedule Num.nan) (nth a backoff_schedule Num.nan)
    = nth a backoff_schedule Num.nan.
Proof.
  intros Ha. do 9 (destruct a as [|a]; [by vm_compute|]). lia.
Qed.

(** The [try] block for an outcome that names no wait of its own: a
    retried status sleeps for the backoff once and doubles it; anything
    else sleeps not at all. *)
Lemma try_block_no_retry_after maxRetries attempt backoff o :
  no_retry_after o = true → Num.max backoff backoff = backoff →
  try_block maxRetries attempt backoff o =
    match o with
    | NetworkFailure e => (Raise e, backoff, [])
    | Responded res =>
        if (status res =? 429) || (status res =? 500) || (status res =? 503) then
          (if (attempt <=? maxRetries)%nat then Continue else Raise (http_error res),
           next_backoff backoff, [EvSleep backoff])
        else
          (match outcome_result o with
           | inl e => Raise e
           | inr data => Return data
           end, backoff, [])
    end.
Proof.
  intros Hno Hmax. destruct o as [e|res]; [done|].
  unfold try_block, on_429, on_5xx, outcome_result. simpl in Hno.
  destruct (status res =? 429) eqn:E429.
  - apply Z.eqb_eq in E429.
    assert ((status res =? 500) = false) as -> by lia.
    assert ((status res =? 503) = false) as -> by lia.
    assert (ok res = false) as Hok by (unfold ok; lia).
    assert (match retry_after res with
            | Some retryAfter =>
                if String.eqb retryAfter "" then backoff
                else Num.mul (Str.to_number retryAfter) lit_1000
            | None => backoff
            end = backoff) as ->.
    { destruct (retry_after res) as [ra|]; [|done]. simpl in Hno. by rewrite Hno. }
    rewrite Hmax. cbn [orb]. destruct (attempt <=? maxRetries)%nat; [done|].
    cbn [app]. by rewrite Hok.
  - cbn [orb app].
    destruct ((status res =? 500) || (status res =? 503)) eqn:E5.
    + assert (ok res = false) as Hok by (unfold ok; lia).
      destruct (attempt <=? maxRetries)%nat; [done|]. cbn [app]. by rewrite Hok.
    + destruct (negb (ok res)); [done|]. by destruct (json res).
Qed.

Section Schedule.

Variable env : option string.
Variables (url : string) (options : gmap string JSValue).

(** From attempt [a] on, the waits are those of the schedule from its
    [a]-th entry on. *)
Lemma fetch_loop_schedule script : ∀ a r rest log,
  (a ≤ 8)%nat →
  Forall (λ o, no_retry_after o = true) script →
  fetch_loop env url options 8 a (nth a backoff_schedule Num.nan) script
    = (r, rest, log) →
  ∃ k, (k + a ≤ 9)%nat ∧ sleeps log = take k (drop a backoff_schedule).
Proof.
  induction script as [|o script IH]; intros a r rest log Ha Hno.
  - rewrite FetchFacts.fetch_loop_nil. intros [= <- <- <-]. exists 0%nat.
    split; [lia|]. by rewrite take_0.
  - apply Forall_cons in Hno as [Ho Hno].
    destruct (schedule_step a Ha) as [Hnext Hmax].
    assert (drop a backoff_schedule
            = nth a backoff_schedule Num.nan :: drop (S a) backoff_schedule) as Hdrop.
    { clear -Ha. do 9 (destruct a as [|a]; [done|]). lia. }
    rewrite FetchFacts.fetch_loop_cons.
    rewrite (try_block_no_retry_after 8 (S a) _ o Ho Hmax).
    destruct o as [e|res].
    + destruct (8 <? S a)%nat eqn:Hlast.
      * intros [= <- <- <-]. exists 0%nat. split; [lia|]. by rewrite take_0.
      * apply Nat.ltb_ge in Hlast. rewrite Hnext.
        destruct (fetch_loop env url options 8 (S a) _ script)
          as [[r' rest'] log'] eqn:Hrec.
        intros [= <- <- <-].
        destruct (IH _ _ _ _ Hlast Hno Hrec) as (k & Hk & Hs).
        exists (S k). split; [lia|]. simpl. by rewrite Hdrop, Hs.
    + destruct ((status res =? 429) || (status res =? 500) || (status res =? 503)).
      * destruct (S a <=? 8)%nat eqn:Hmore.
        -- apply Nat.leb_le in Hmore. rewrite Hnext.
           destruct (fetch_loop env url options 8 (S a) _ script)
             as [[r' rest'] log'] eqn:Hrec.
           intros [= <- <- <-].
           destruct (IH _ _ _ _ Hmore Hno Hrec) as (k & Hk & Hs).
           exists (S k). split; [lia|]. simpl. by rewrite Hdrop, Hs.
        -- apply Nat.leb_gt in Hmore.
           assert ((8 <? S a)%nat = true) as -> by (apply Nat.ltb_lt; lia).
           intros [= <- <- <-]. exists 1%nat. split; [lia|]. simpl.
           by rewrite Hdrop.
      * destruct (outcome_result (Responded res)) as [e|data].
        -- destruct (8 <? S a)%nat eqn:Hlast.
           ++ intros [= <- <- <-]. exists 0%nat. split; [lia|]. by rewrite take_0.
           ++ apply Nat.ltb_ge in Hlast. rewrite Hnext.
              destruct (fetch_loop env url options 8 (S a) _ script)
                as [[r' rest'] log'] eqn:Hrec.
              intros [= <- <- <-].
              destruct (IH _ _ _ _ Hlast Hno Hrec) as (k & Hk & Hs).
              exists (S k). split; [lia|]. simpl. by rewrite Hdrop, Hs.
        -- intros [= <- <- <-]. exists 0%nat. split; [lia|]. by rewrite take_0.
Qed.

(** The value of the first success is returned, whatever failed before
    it, as long as an attempt is left for it. *)
Lemma fetch_loop_first_success pre : ∀ a backoff o rest v,
  (length pre + a ≤ 8)%nat →
  Forall failed pre → outcome_result o = inr v →
  ∃ log,
    fetch_loop env url options 8 a backoff (pre ++ o :: rest) = (Returned v, rest, log)
    ∧ fetches log = S (length pre).
Proof.
  induction pre as [|x pre IH]; intros a backoff o rest v Hlen Hfail Hv.
  - change ([] ++ o :: rest) with (o :: rest). rewrite FetchFacts.fetch_loop_cons.
    pose proof (FetchFacts.try_block_step 8 (S a) backoff o) as Hstep.
    pose proof (FetchFacts.try_block_fetches 8 (S a) backoff o) as Hevs.
    destruct (try_block 8 (S a) backoff o) as [[step backoff'] evs].
    cbn [fst snd] in Hstep, Hevs. subst step.
    destruct o as [e|res]; [done|].
    rewrite (success_not_retried res v Hv), Hv. cbn [andb].
    eexists. split; [done|]. simpl. by rewrite Hevs.
  - simpl in Hlen. apply Forall_cons in Hfail as [[e He] Hfail].
    change ((x :: pre) ++ o :: rest) with (x :: (pre ++ o :: rest)).
    rewrite FetchFacts.fetch_loop_cons.
    pose proof (FetchFacts.try_block_step 8 (S a) backoff x) as Hstep.
    pose proof (FetchFacts.try_block_fetches 8 (S a) backoff x) as Hevs.
    destruct (try_block 8 (S a) backoff x) as [[step backoff'] evs].
    cbn [fst snd] in Hstep, Hevs.
    assert ((8 <? S a)%nat = false) as Hlt by (apply Nat.ltb_ge; lia).
    assert (step = Continue ∨ step = Raise e) as [->| ->].
    { subst step. destruct x as [e'|res].
      - simpl in He. injection He as ->. by right.
      - rewrite He. destruct (_ && _); auto. }
    + destruct (IH (S a) backoff' o rest v) as (log & -> & Hn); [lia|done|done|].
      eexists. split; [done|]. simpl. rewrite FetchFacts.fetches_app, Hevs, Hn. done.
    + rewrite Hlt.
      destruct (IH (S a) (next_backoff backoff') o rest v) as (log & -> & Hn);
        [lia|done|done|].
      eexists. split; [done|]. simpl. rewrite FetchFacts.fetches_app, Hevs. simpl.
      by rewrite Hn.
Qed.

End Schedule.

End RetryFacts.

(** X11. When no answer 429 names a wait of its own in a [retry-after]
    header, the waits of a call of [fetchWithRetry] are, in order, the
    first ones of 300, 600, 1200, 2400, 4800, 5000, 5000, 5000, 5000 ms,
    nine at most. *)
Theorem fetchWithRetry_backoff_schedule env url options script r rest log :
  Forall (λ o, no_retry_after o = true) script →
  fetchWithRetry env url options 8 script = (r, rest, log) →
  ∃ k, (k ≤ 9)%nat ∧ sleeps log = take k backoff_schedule.
Proof.
  intros Hno Hrun. unfold fetchWithRetry in Hrun.
  destruct (RetryFacts.fetch_loop_schedule env url options script 0 r rest log)
    as (k & Hk & Hs); [lia|done|done|].
  exists k. split; [lia|done].
Qed.

Lemma fetchWithRetry_backoff_schedule_witness :
  sleeps (fetchWithRetry None "u" ∅ 8 exhausting_script).2
  = map Num.of_Z [300; 600; 1200; 2400; 4800; 5000; 5000; 5000].
Proof.
  destruct (fetchWithRetry_backoff_schedule None "u" ∅ exhausting_script
              (fetchWithRetry None "u" ∅ 8 exhausting_script).1.1
              (fetchWithRetry None "u" ∅ 8 exhausting_script).1.2
              (fetchWithRetry None "u" ∅ 8 exhausting_script).2)
    as (k & Hk & Hs).
  - repeat constructor.
  - by destruct (fetchWithRetry None "u" ∅ 8 exhausting_script) as [[r rest] log].
  - reflexivity.
Defined.

(** X12. [fetchWithRetry] returns the parsed body of the first answer
    that is ok and parses, whatever the failures before it (a network
    failure, a status that is not ok, a body that does not parse), when
    they are 8 at most; it has then called [fetch] once per outcome, and
    the outcomes after that answer are left. *)
Theorem fetchWithRetry_first_success env url options pre o rest v :
  (length pre ≤ 8)%nat → Forall failed pre → outcome_result o = inr v →
  ∃ log,
    fetchWithRetry env url options 8 (pre ++ o :: rest) = (Returned v, rest, log)
    ∧ fetches log = S (length pre).
Proof.
  intros Hlen Hfail Hv. unfold fetchWithRetry.
  apply RetryFacts.fetch_loop_first_success; [lia|done|done].
Qed.

Lemma fetchWithRetry_first_success_witness :
  ∃ log,
    fetchWithRetry None "u" ∅ 8
      [NetworkFailure (Thrown "fetch failed"); Responded sample_404;
       Responded sample_ok; Responded sample_404]
    = (Returned (VObj ∅), [Responded sample_404], log)
    ∧ fetches log = 3%nat.
Proof.
  apply (fetchWithRetry_first_success None "u" ∅
           [NetworkFailure (Thrown "fetch failed"); Responded sample_404]
           (Responded sample_ok) [Responded sample_404] (VObj ∅)).
  - simpl. lia.
  - repeat constructor; by eexists.
  - reflexivity.
Defined.

(* ================================================================== *)
(** * Paginator and submitter: further properties *)
(* ================================================================== *)

Module PageFacts.

(** The options of a call without options, as [fetch] gets them. *)
Lemma request_init_default env :
  request_init env ∅ = {[ "headers" := VObj {[ "x-api-key" := VStr (API_KEY env) ]} ]}.
Proof. reflexivity. Qed.

(** The requests of a run are all the one request of the call. *)
Lemma fetch_loop_requests env url options maxRetries script attempt backoff r rest log :
  (attempt ≤ maxRetries)%nat →
  fetch_loop env url options maxRetries attempt backoff script = (r, rest, log) →
  Forall (λ q, q = (url, request_init env options)) (requests log).
Proof.
  intros Hle Hrun.
  apply FetchFacts.fetch_loop_run in Hrun as (_ & _ & _ & _ & _ & Hall); [|done].
  induction Hall as [|[u init|ms] log Hev Hall IH]; simpl; [constructor| |done].
  injection Hev as -> ->. by constructor.
Qed.

(** A page answered at once with a [hasNext] flag. *)
Lemma pages_loop_flagged_page env fuel page totalPages all data more tail :
  pages_loop env (S fuel) page totalPages all (flagged_page data more :: tail) =
    if more then
      (let '(r, rest, log) :=
         pages_loop env fuel (S page) totalPages (all ++ data) tail in
       (r, rest, EvFetch (page_url page) (request_init env ∅) :: EvSleep lit_120 :: log))
    else (Returned (all ++ data), tail, [EvFetch (page_url page) (request_init env ∅)]).
Proof.
  cbn [pages_loop].
  change (fetchWithRetry env (page_url page) ∅ 8 (flagged_page data more :: tail))
    with (Returned (VObj {[ "data" := VArr data;
                            "pagination" := VObj {[ "hasNext" := VBool more ]} ]}),
          tail, [EvFetch (page_url page) (request_init env ∅)]).
  cbn iota.
  change (page_data (VObj {[ "data" := VArr data;
                             "pagination" := VObj {[ "hasNext" := VBool more ]} ]}))
    with data.
  change (page_pagination (VObj {[ "data" := VArr data;
                                   "pagination" := VObj {[ "hasNext" := VBool more ]} ]}))
    with (VObj {[ "hasNext" := VBool more ]}).
  change (track_totalPages totalPages (VObj {[ "hasNext" := VBool more ]}))
    with totalPages.
  change (hasNext page totalPages (VObj {[ "hasNext" := VBool more ]}) data) with more.
  destruct more; [|done]. cbn [negb].
  by destruct (pages_loop env fuel (S page) totalPages (all ++ data) tail) as [[r rest] log].
Qed.

(** Pages that each announce a next one are gathered in order, with a
    pause of 120 ms after each. *)
Lemma pages_loop_flagged env pre : ∀ fuel page totalPages all tail r rest log,
  pages_loop env fuel (page + length pre) totalPages (all ++ concat pre) tail
    = (r, rest, log) →
  ∃ log0,
    pages_loop env (length pre + fuel) page totalPages all
      (map (λ data, flagged_page data true) pre ++ tail) = (r, rest, log0 ++ log)
    ∧ fetches log0 = length pre
    ∧ sleeps log0 = replicate (length pre) lit_120.
Proof.
  induction pre as [|data pre IH]; intros fuel page totalPages all tail r rest log Hrun.
  - exists []. simpl in *. rewrite Nat.add_0_r, app_nil_r in Hrun. done.
  - cbn [map app length Nat.add]. rewrite pages_loop_flagged_page.
    destruct (IH fuel (S page) totalPages (all ++ data) tail r rest log)
      as (log0 & -> & Hf & Hs).
    { rewrite <- Hrun. simpl. rewrite <- app_assoc. f_equal. lia. }
    eexists (_ :: _ :: log0). split; [done|]. simpl. by rewrite Hf, Hs.
Qed.

End PageFacts.

(** X13. Every request [getAllPatients] sends is for a page of 20
    records, the page number being 1 or more, and carries exactly one
    header, [x-api-key], holding the API key. *)
Theorem getAllPatients_requests (env : option string) (script : list Outcome) :
  Forall (λ q, (∃ page, (1 ≤ page)%nat ∧ q.1 = page_url page)
               ∧ q.2 = {[ "headers" := VObj {[ "x-api-key" := VStr (API_KEY env) ]} ]})
    (requests (getAllPatients env script).2).
Proof.
  unfold getAllPatients. generalize (S (length script)) at 1. intros fuel.
  generalize 1%nat at 1 2 as first. generalize (@None number) as totalPages.
  generalize (@nil JSValue) as all. revert script.
  induction fuel as [|fuel IH]; intros script all totalPages first; [constructor|].
  cbn [pages_loop].
  destruct (fetchWithRetry env (page_url first) ∅ 8 script) as [[r rest] log] eqn:Hrun.
  assert (Forall (λ q, (∃ page, (first ≤ page)%nat ∧ q.1 = page_url page)
                       ∧ q.2 = {[ "headers" :=
                                    VObj {[ "x-api-key" := VStr (API_KEY env) ]} ]})
            (requests log)) as Hlog.
  { unfold fetchWithRetry in Hrun.
    apply PageFacts.fetch_loop_requests in Hrun; [|lia].
    eapply Forall_impl; [exact Hrun|]. intros q ->. split; [by exists first|].
    apply PageFacts.request_init_default. }
  destruct r as [payload|e|]; try done.
  destruct (negb (hasNext _ _ _ _)); [done|].
  specialize (IH rest (all ++ page_data payload)
                (track_totalPages totalPages (page_pagination payload)) (S first)).
  destruct (pages_loop env fuel (S first) _ _ rest) as [[r' rest'] log'].
  cbn [snd] in *. rewrite RetryFacts.requests_app. apply Forall_app. split; [done|].
  cbn [requests]. eapply Forall_impl; [exact IH|].
  intros q [(page & Hp & Hq) Hinit]. split; [|done]. exists page. split; [lia|done].
Qed.

(** X14. When the pages are answered at once, each with a [hasNext]
    flag, [getAllPatients] returns the records of the pages in order, up
    to and with the first page whose flag is false; it asks for no page
    after that one, and pauses 120 ms after each page before it. *)
Theorem getAllPatients_follows_hasNext (env : option string)
    (pre : list (list JSValue)) (last : list JSValue) (rest : list Outcome) :
  ∃ log,
    getAllPatients env
      (map (λ data, flagged_page data true) pre ++ flagged_page last false :: rest)
    = (Returned (concat pre ++ last), rest, log)
    ∧ fetches log = S (length pre)
    ∧ sleeps log = replicate (length pre) lit_120.
Proof.
  unfold getAllPatients. rewrite length_app, length_map. cbn [length].
  destruct (PageFacts.pages_loop_flagged env pre (S (S (length rest))) 1 None []
              (flagged_page last false :: rest)
              (Returned (concat pre ++ last)) rest
              [EvFetch (page_url (1 + length pre)) (request_init env ∅)])
    as (log0 & Hrun & Hf & Hs).
  { by rewrite PageFacts.pages_loop_flagged_page. }
  replace (S (length pre + S (length rest))) with (length pre + S (S (length rest)))%nat
    by lia.
  rewrite Hrun. eexists. split; [done|].
  rewrite FetchFacts.fetches_app, RetryFacts.sleeps_app, Hf, Hs. simpl.
  split; [lia|by rewrite app_nil_r].
Qed.



(** X16. Every request [submitResults] sends, the first as the retries,
    goes to [/submit-assessment] with the method POST, the result set
    serialized by [JSON.stringify] as its body, and two headers: the API
    key and the JSON content type. *)
Theorem submitResults_requests (env : option string) (results : ResultSet)
    (script : list Outcome) :
  Forall (λ q, q.1 = BASE_URL +:+ "/submit-assessment"
               ∧ get q.2 "method" = VStr "POST"
               ∧ get q.2 "body" = VStr (JSON.stringify results)
               ∧ get q.2 "headers" =
                   VObj {[ "x-api-key" := VStr (API_KEY env);
                           "Content-Type" := VStr "application/json" ]})
    (requests (submitResults env results script).2).
Proof.
  unfold submitResults, fetchWithRetry.
  destruct (fetch_loop env _ (submit_options results) 8 0 lit_300 script)
    as [[r rest] log] eqn:Hrun.
  apply PageFacts.fetch_loop_requests in Hrun; [|lia].
  cbn [snd]. eapply Forall_impl; [exact Hrun|]. intros q ->.
  split_and!; reflexivity.
Qed.

Module JSONFacts.

Lemma append_assoc (a b c : string) : (a +:+ b) +:+ c = a +:+ (b +:+ c).
Proof.
  induction a as [|x a IH]; [done|].
  rewrite !TrimFacts.append_cons. by rewrite IH.
Qed.

Lemma append_inv_head (p a b : string) : p +:+ a = p +:+ b → a = b.
Proof.
  induction p as [|x p IH]; [done|].
  rewrite !TrimFacts.append_cons. intros [= H]. auto.
Qed.

(** Reading back one escaped character. *)
Lemma read_escape c t :
  read_chars (JSON.escape c +:+ t) =
    match read_chars t with
    | Some (u, r) => Some (String c u, r)
    | None => None
    end.
Proof. destruct c as [[] [] [] [] [] [] [] []]; reflexivity. Qed.

(** Reading back an escaped string up to the quote mark that closes it. *)
Lemma read_escape_all s t :
  read_chars (JSON.escape_all s +:+ String JSON.quote_mark t) = Some (s, t).
Proof.
  induction s as [|c s IH]; [done|].
  cbn [JSON.escape_all]. by rewrite append_assoc, read_escape, IH.
Qed.

Lemma quote_head x t :
  JSON.quote x +:+ t
  = String JSON.quote_mark (JSON.escape_all x +:+ String JSON.quote_mark t).
Proof.
  unfold JSON.quote. rewrite TrimFacts.append_cons. by rewrite append_assoc.
Qed.

(** A quoted string ends where it says: two quoted strings, each with
    something after it, are equal only as the same string with the same
    after it. *)
Lemma quote_inj x y t1 t2 :
  JSON.quote x +:+ t1 = JSON.quote y +:+ t2 → x = y ∧ t1 = t2.
Proof.
  rewrite !quote_head. intros [= H].
  apply (f_equal read_chars) in H. rewrite !read_escape_all in H.
  by injection H.
Qed.

Lemma elements_cons x y l :
  JSON.elements (x :: y :: l) = JSON.quote x +:+ "," +:+ JSON.elements (y :: l).
Proof. done. Qed.

Lemma elements_inj l1 : ∀ l2 t1 t2,
  JSON.elements l1 +:+ String "]" t1 = JSON.elements l2 +:+ String "]" t2 →
  l1 = l2 ∧ t1 = t2.
Proof.
  induction l1 as [|x l1 IH]; intros [|y l2] t1 t2.
  - by intros [= ->].
  - destruct l2 as [|y' l2]; [|rewrite elements_cons, append_assoc];
      cbn [JSON.elements]; rewrite quote_head; intros H; discriminate H.
  - destruct l1 as [|x' l1]; [|rewrite elements_cons, append_assoc];
      cbn [JSON.elements]; rewrite quote_head; intros H; discriminate H.
  - destruct l1 as [|x' l1], l2 as [|y' l2];
      rewrite ?elements_cons, ?append_assoc; cbn [JSON.elements].
    + intros [-> [= ->]]%quote_inj. done.
    + intros [_ H]%quote_inj. discriminate H.
    + intros [_ H]%quote_inj. discriminate H.
    + intros [-> H]%quote_inj. rewrite ?append_assoc in H.
      apply (append_inv_head ",") in H.
      destruct (IH (y' :: l2) t1 t2 H) as [-> ->]. done.
Qed.

Lemma stringify_shape r :
  JSON.stringify r =
    ("{" +:+ JSON.quote "high_risk_patients" +:+ ":[") +:+
    (JSON.elements (high_risk_patients r) +:+ String "]"
       (("," +:+ JSON.quote "fever_patients" +:+ ":[") +:+
        (JSON.elements (fever_patients r) +:+ String "]"
           (("," +:+ JSON.quote "data_quality_issues" +:+ ":[") +:+
            (JSON.elements (data_quality_issues r) +:+ String "]" "}"))))).
Proof.
  unfold JSON.stringify, JSON.array. rewrite !append_assoc. reflexivity.
Qed.

End JSONFacts.

(** X17. The body [submitResults] posts tells the three lists apart:
    two result sets with the same [JSON.stringify] are the same, whatever
    characters the identifiers hold (quote marks, commas, brackets,
    backslashes, control characters). *)
Theorem stringify_injective (r1 r2 : ResultSet) :
  JSON.stringify r1 = JSON.stringify r2 ↔ r1 = r2.
Proof.
  split; [|by intros ->].
  rewrite !JSONFacts.stringify_shape. intros H.
  apply JSONFacts.append_inv_head in H.
  apply JSONFacts.elements_inj in H as [Hh H].
  apply JSONFacts.append_inv_head in H.
  apply JSONFacts.elements_inj in H as [Hf H].
  apply JSONFacts.append_inv_head in H.
  apply JSONFacts.elements_inj in H as [Hd _].
  destruct r1, r2. simpl in *. by subst.
Qed.

Module PlainPageFacts.

(** A page answered at once without pagination metadata, when no total
    page count was seen. *)
Lemma pages_loop_plain_page env fuel page all data tail :
  pages_loop env (S fuel) page None all (plain_page data :: tail) =
    if (length data =? 20)%nat then
      (let '(r, rest, log) := pages_loop env fuel (S page) None (all ++ data) tail in
       (r, rest, EvFetch (page_url page) (request_init env ∅) :: EvSleep lit_120 :: log))
    else (Returned (all ++ data), tail, [EvFetch (page_url page) (request_init env ∅)]).
Proof.
  cbn [pages_loop].
  change (fetchWithRetry env (page_url page) ∅ 8 (plain_page data :: tail))
    with (Returned (VObj {[ "data" := VArr data ]}), tail,
          [EvFetch (page_url page) (request_init env ∅)]).
  cbn iota.
  change (page_data (VObj {[ "data" := VArr data ]})) with data.
  change (page_pagination (VObj {[ "data" := VArr data ]})) with (VObj ∅).
  change (track_totalPages None (VObj ∅)) with (@None number).
  change (hasNext page None (VObj ∅) data) with (length data =? 20)%nat.
  destruct (length data =? 20)%nat; [|done]. cbn [negb].
  by destruct (pages_loop env fuel (S page) None (all ++ data) tail) as [[r rest] log].
Qed.

Lemma pages_loop_full_pages env pre : ∀ fuel page all tail r rest log,
  Forall (λ data, length data = 20%nat) pre →
  pages_loop env fuel (page + length pre) None (all ++ concat pre) tail
    = (r, rest, log) →
  ∃ log0,
    pages_loop env (length pre + fuel) page None all (map plain_page pre ++ tail)
      = (r, rest, log0 ++ log)
    ∧ fetches log0 = length pre.
Proof.
  induction pre as [|data pre IH]; intros fuel page all tail r rest log Hfull Hrun.
  - exists []. simpl in *. rewrite Nat.add_0_r, app_nil_r in Hrun. done.
  - apply Forall_cons in Hfull as [Hdata Hfull].
    cbn [map app length Nat.add]. rewrite pages_loop_plain_page, Hdata. cbn [Nat.eqb].
    destruct (IH fuel (S page) (all ++ data) tail r rest log Hfull)
      as (log0 & -> & Hf).
    { rewrite <- Hrun. simpl. rewrite <- app_assoc. f_equal. lia. }
    eexists (_ :: _ :: log0). split; [done|]. simpl. by rewrite Hf.
Qed.

End PlainPageFacts.

(** X18. When the pages are answered at once and carry no pagination
    metadata, [getAllPatients] goes on as long as the pages hold 20
    records, and stops with the first page that holds another number: it
    returns the records of all these pages in order and asks for no page
    after. *)
Theorem getAllPatients_stops_on_first_short_page (env : option string)
    (pre : list (list JSValue)) (last : list JSValue) (rest : list Outcome) :
  Forall (λ data, length data = 20%nat) pre → length last ≠ 20%nat →
  ∃ log,
    getAllPatients env (map plain_page pre ++ plain_page last :: rest)
    = (Returned (concat pre ++ last), rest, log)
    ∧ fetches log = S (length pre).
Proof.
  intros Hfull Hshort.
  unfold getAllPatients. rewrite length_app, length_map. cbn [length].
  destruct (PlainPageFacts.pages_loop_full_pages env pre (S (S (length rest))) 1 []
              (plain_page last :: rest)
              (Returned (concat pre ++ last)) rest
              [EvFetch (page_url (1 + length pre)) (request_init env ∅)] Hfull)
    as (log0 & Hrun & Hf).
  { rewrite PlainPageFacts.pages_loop_plain_page.
    by apply Nat.eqb_neq in Hshort as ->. }
  replace (S (length pre + S (length rest))) with (length pre + S (S (length rest)))%nat
    by lia.
  rewrite Hrun. eexists. split; [done|].
  rewrite FetchFacts.fetches_app, Hf. simpl. lia.
Qed.

Lemma getAllPatients_stops_on_first_short_page_witness :
  ∃ log,
    getAllPatients None
      [plain_page full_page; plain_page []; plain_page full_page]
    = (Returned full_page, [plain_page full_page], log)
    ∧ fetches log = 2%nat.
Proof.
  destruct (getAllPatients_stops_on_first_short_page None [full_page] []
              [plain_page full_page]) as (log & Hrun & Hf).
  - by repeat constructor.
  - done.
  - exists log. split; [exact Hrun|done].
Defined.
